(** * Smart attendance system: matching, deduplication, registration, recording

    A shallow embedding of the core of the attendance project:

    - [Detection]: [OptimizedAttendanceSystem.remove_duplicate_faces] and
      [filter_and_validate_faces] (smart_attendance_system.py);
    - [Gallery]: the per-student map and the two parallel lists, with
      [load_precomputed_encodings], [register_student] and
      [batch_register_from_folders] (smart_attendance_system.py);
    - [Matcher]: [recognize_faces_in_image] (flask_api.py) and
      [SimpleAttendanceSystem.detect_faces_in_image]
      (simple_attendance_system.py);
    - [Recorder]: [SimpleAttendanceSystem.mark_attendance] and
      [OpenCVAttendanceSystem.mark_attendance_batch], with the table they
      create and the way the sqlite3 module binds their parameters;
    - [Persistence], [Uploads], [Classroom], [Recognition], [OpenCV]: what
      an artifact contributes when loaded, [allowed_file] (flask_api.py),
      the two [process_classroom_photo] (simple_attendance_system.py,
      opencv_only_system.py) and the vocabulary of their properties.

    Face embeddings and the distance between two of them come from the
    external face_recognition library; they are a type [Enc] and a function
    [dist] into the rationals, fixed per section.  The code only ever
    compares distances and subtracts them from 1. *)

From Stdlib Require Import ZArith QArith Qabs Reals Lra Lqa Lia Ascii String.
From stdpp Require Import gmap strings list fin_maps sorting.

(** ** Detection merger *)

Module Detection.

Local Open Scope Z_scope.

(** A face location in face_recognition order: (top, right, bottom, left). *)
Record box := Box { f_top : Z; f_right : Z; f_bottom : Z; f_left : Z }.

(** [((left + right) // 2, (top + bottom) // 2)]: Python's floor division. *)
Definition center (b : box) : Z * Z :=
  ((f_left b + f_right b) / 2, (f_top b + f_bottom b) / 2).

(** [max(right - left, bottom - top)] *)
Definition face_size (b : box) : Z :=
  Z.max (f_right b - f_left b) (f_bottom b - f_top b).

(** The square of the distance between two centers; the code takes its
    square root with [** 0.5]. *)
Definition dist2 (c1 c2 : Z * Z) : Z :=
  (fst c1 - fst c2) ^ 2 + (snd c1 - snd c2) ^ 2.

Definition min_size (face existing : box) : Z :=
  Z.min (face_size face) (face_size existing).

(** [distance < min_size * 0.5], decided on the integers: a square root is
    below [m / 2] exactly when [m] is positive and four times the square is
    below [m * m] (lemma [too_close_sqrt] below). *)
Definition too_close (face existing : box) : bool :=
  (0 <? min_size face existing) &&
  (4 * dist2 (center face) (center existing)
     <? min_size face existing * min_size face existing).

(** The inner loop: [is_duplicate] becomes true at the first kept face that
    is too close. *)
Definition is_duplicate (face : box) (unique_faces : list box) : bool :=
  existsb (too_close face) unique_faces.

(** The outer loop, threading [unique_faces]. *)
Fixpoint dedup_loop (face_locations unique_faces : list box) : list box :=
  match face_locations with
  | [] => unique_faces
  | face :: rest =>
      dedup_loop rest
        (if is_duplicate face unique_faces then unique_faces
         else unique_faces ++ [face])
  end.

Definition remove_duplicate_faces (face_locations : list box) : list box :=
  if (length face_locations <=? 1)%nat then face_locations
  else dedup_loop face_locations [].

Definition area (b : box) : Z := (f_bottom b - f_top b) * (f_right b - f_left b).

(** [list.sort(key=area, reverse=True)] is stable: a box goes after every
    box whose area is at least its own. *)
Fixpoint insert_by_area (b : box) (sorted : list box) : list box :=
  match sorted with
  | [] => [b]
  | c :: rest =>
      if area c <? area b then b :: c :: rest else c :: insert_by_area b rest
  end.

Definition sort_by_area (l : list box) : list box :=
  fold_left (fun acc b => insert_by_area b acc) l [].

Definition valid_size (min_face_size : Z) (b : box) : bool :=
  (min_face_size <=? f_bottom b - f_top b) &&
  (min_face_size <=? f_right b - f_left b).

Definition filter_and_validate_faces (min_face_size : Z) (face_locations : list box)
  : list box :=
  sort_by_area (filter (fun b => valid_size min_face_size b = true) face_locations).

(** The tail of [fast_face_detection]: merge, then validate. *)
Definition merge_detections (min_face_size : Z) (all_faces : list box) : list box :=
  match all_faces with
  | [] => []
  | _ => filter_and_validate_faces min_face_size (remove_duplicate_faces all_faces)
  end.

(** No two kept faces are too close to each other, a later one measured
    against an earlier one as the loop does. *)
Definition separated (l : list box) : Prop :=
  forall i j a b, (i < j)%nat -> l !! i = Some a -> l !! j = Some b ->
    too_close b a = false.

(** *** The integer types of the boxes

    The arithmetic above is that of Python ints, which face_recognition
    returns.  The boxes of the Haar detector hold [numpy.int32]: with such
    operands every sum, difference and square wraps into [-2^31, 2^31), and
    the square root of a negative, wrapped sum is nan, which compares
    false. *)
Definition wrap32 (z : Z) : Z := (z + 2 ^ 31) mod 2 ^ 32 - 2 ^ 31.

Definition center32 (b : box) : Z * Z :=
  (wrap32 (f_left b + f_right b) / 2, wrap32 (f_top b + f_bottom b) / 2).

Definition face_size32 (b : box) : Z :=
  Z.max (wrap32 (f_right b - f_left b)) (wrap32 (f_bottom b - f_top b)).

Definition dist2_32 (c1 c2 : Z * Z) : Z :=
  wrap32 (wrap32 (wrap32 (fst c1 - fst c2) ^ 2)
          + wrap32 (wrap32 (snd c1 - snd c2) ^ 2)).

Definition too_close32 (face existing : box) : bool :=
  let m := Z.min (face_size32 face) (face_size32 existing) in
  let d2 := dist2_32 (center32 face) (center32 existing) in
  (0 <=? d2) && (0 <? m) && (4 * d2 <? m * m).

(** The same two loops on [numpy.int32] boxes. *)
Definition is_duplicate32 (face : box) (unique_faces : list box) : bool :=
  existsb (too_close32 face) unique_faces.

Fixpoint dedup_loop32 (face_locations unique_faces : list box) : list box :=
  match face_locations with
  | [] => unique_faces
  | face :: rest =>
      dedup_loop32 rest
        (if is_duplicate32 face unique_faces then unique_faces
         else unique_faces ++ [face])
  end.

Definition remove_duplicate_faces32 (face_locations : list box) : list box :=
  if (length face_locations <=? 1)%nat then face_locations
  else dedup_loop32 face_locations [].

(** A box of an image less than 2^15 pixels wide and high.  On such boxes
    nothing wraps and the two arithmetics decide alike (lemma
    [too_close32_exact] below); the float square root and product are then far
    from any rounding that could change the comparison. *)
Definition int32_exact (b : box) : Prop :=
  (0 <= f_top b < 2 ^ 15) /\ (0 <= f_right b < 2 ^ 15) /\
  (0 <= f_bottom b < 2 ^ 15) /\ (0 <= f_left b < 2 ^ 15).

End Detection.

(** The centres of two boxes without rounding, and the Euclidean distance
    between them: what a reader takes "center-to-center distance" to be. *)
Module Geometry.

Import Detection.

Local Open Scope R_scope.

Definition true_center (b : box) : R * R :=
  ((IZR (f_left b) + IZR (f_right b)) / 2, (IZR (f_top b) + IZR (f_bottom b)) / 2).

Definition center_distance (b1 b2 : box) : R :=
  sqrt ((fst (true_center b1) - fst (true_center b2)) ^ 2
        + (snd (true_center b1) - snd (true_center b2)) ^ 2).

End Geometry.

(** ** Python string methods used on folder names

    A string is its UTF-8 bytes.  The case functions below are
    [str.upper()], [str.title()] and [str.lower()] on ASCII text, where a
    character is a byte below 128 ([isascii]); on other text Python follows
    the Unicode case mappings ('ß'.upper() is 'SS'), which are not modelled:
    the properties that depend on the result ask for ASCII names. *)

Module PyStr.

(** [str.isascii()] *)
Fixpoint isascii (s : string) : bool :=
  match s with
  | EmptyString => true
  | String c rest => (nat_of_ascii c <? 128)%nat && isascii rest
  end.

Definition is_lower (c : ascii) : bool :=
  (97 <=? nat_of_ascii c)%nat && (nat_of_ascii c <=? 122)%nat.

Definition is_upper (c : ascii) : bool :=
  (65 <=? nat_of_ascii c)%nat && (nat_of_ascii c <=? 90)%nat.

Definition to_upper (c : ascii) : ascii :=
  if is_lower c then ascii_of_nat (nat_of_ascii c - 32) else c.

Definition to_lower (c : ascii) : ascii :=
  if is_upper c then ascii_of_nat (nat_of_ascii c + 32) else c.

(** [str.upper()], on ASCII text *)
Fixpoint upper (s : string) : string :=
  match s with
  | EmptyString => EmptyString
  | String c rest => String (to_upper c) (upper rest)
  end.

(** [str.replace('_', ' ')] *)
Fixpoint replace_underscore (s : string) : string :=
  match s with
  | EmptyString => EmptyString
  | String c rest =>
      String (if Ascii.eqb c "_" then " "%char else c) (replace_underscore rest)
  end.

(** [str.title()], on ASCII text: a cased character is upper-cased after
    an uncased one and lower-cased after a cased one. *)
Fixpoint title_from (previous_is_cased : bool) (s : string) : string :=
  match s with
  | EmptyString => EmptyString
  | String c rest =>
      let c' :=
        if is_lower c then (if previous_is_cased then c else to_upper c)
        else if is_upper c then (if previous_is_cased then to_lower c else c)
        else c in
      String c' (title_from (is_lower c || is_upper c) rest)
  end.

Definition title (s : string) : string := title_from false s.

(** [str.startswith(p)] *)
Definition startswith (s p : string) : bool := String.prefix p s.

End PyStr.

(** ** Embedding gallery and registration pipeline *)

Module Gallery.

Section Definitions.

Context {Enc : Type}.

(** The value stored in [student_database] for one student. *)
Record student_data := StudentData {
  sd_name : string;
  sd_encodings : list Enc;
  sd_registered_date : nat;
  sd_image_count : nat;
  sd_total_encodings : nat
}.

(** The attributes of [OptimizedAttendanceSystem] that the core reads or
    writes. *)
Record system := System {
  face_recognition_tolerance : Q;
  min_face_size : Z;
  encoding_timeout : nat;
  max_workers : nat;
  known_face_encodings : list Enc;
  known_face_names : list string;
  student_database : gmap string student_data
}.

(** A parsed precomputed-encoding JSON object: every key may be missing. *)
Record artifact := Artifact {
  a_name : option string;
  a_encodings : option (list Enc);
  a_registered_date : option nat;
  a_image_count : option nat;
  a_total_encodings : option nat
}.

(** A [*.json] file of models/precomputed_encodings: [json.load] raises on
    [Unreadable]. *)
Inductive file := Unreadable | Json (a : artifact).

(** What [save_student_database] pickles. *)
Record pickle := Pickle {
  p_student_database : gmap string student_data;
  p_known_face_encodings : list Enc;
  p_known_face_names : list string
}.

(** The file student_database.pkl: a complete pickle, or what a failed
    dump leaves behind. *)
Inductive pickle_file := Pickled (p : pickle) | BrokenPickle.

(** How writing a file ends.  Both save methods wrap the write in
    [try: ... except Exception], log the error and return normally, so the
    caller never learns which of these happened.
    - [Written]: the file holds the dumped data;
    - [Truncated]: [open(..., 'w')] succeeded, which empties the file, and
      the dump or the closing flush raised (disk full, I/O error);
    - [NotOpened]: [open] raised (name too long for the file system, no
      permission): the file is what it was;
    - [NoDirectory]: [os.makedirs] raised: nothing is created. *)
Inductive write := Written | Truncated | NotOpened | NoDirectory.

(** The world outside the object.  [precomputed_encodings] maps the stem of
    each [*.json] file of that directory to its content ([None]: the
    directory does not exist).  [student_photos] lists the entries of the
    student_photos directory: [(name, Some images)] for a folder with the
    sorted image paths [get_student_images] finds in it, [(name, None)] for
    a plain file.  [clock] is the reading of [datetime.now()].
    [submitted] logs the image paths handed to [executor.submit].
    [json_write stem] is how the file system answers an attempt to write
    [stem].json in the encodings directory, [pickle_write] an attempt to
    write student_database.pkl. *)
Record world := World {
  clock : nat;
  precomputed_encodings : option (gmap string file);
  student_photos : option (list (string * option (list string)));
  student_database_pkl : option pickle_file;
  submitted : list string;
  json_write : string -> write;
  pickle_write : write
}.

(** What a submitted [process_single_image] task does: return an encoding
    or [None] after some seconds, make [future.result()] raise, or never
    complete. *)
Inductive task :=
| Returns (seconds : nat) (encoding : option Enc)
| Raises (seconds : nat)
| Hangs.

(** The external part of [process_single_image] (image decoding, detection
    and embedding), per image path. *)
Variable process_single_image : string -> task.

Definition default_system : system :=
  {| face_recognition_tolerance := 0.5;
     min_face_size := 35;
     encoding_timeout := 8;
     max_workers := 4;
     known_face_encodings := [];
     known_face_names := [];
     student_database := ∅ |}.

Definition is_generic (stem : string) : bool := PyStr.startswith stem "STUDENT_".

(** The three statements both mutators share:
    [student_database[student_id] = data], then
    [known_face_encodings.extend(encodings)] and
    [known_face_names.extend([student_id] * len(encodings))]. *)
Definition add_student (s : system) (student_id : string) (d : student_data)
  : system :=
  {| face_recognition_tolerance := face_recognition_tolerance s;
     min_face_size := min_face_size s;
     encoding_timeout := encoding_timeout s;
     max_workers := max_workers s;
     known_face_encodings := known_face_encodings s ++ sd_encodings d;
     known_face_names :=
       known_face_names s ++ replicate (length (sd_encodings d)) student_id;
     student_database := <[student_id := d]> (student_database s) |}.

(** One iteration of the loop of [load_precomputed_encodings]; every
    exception (unreadable JSON, missing 'encodings' or 'name') is caught per
    file and the file is skipped. *)
Definition load_file (now : nat) (acc : nat * system) (f : string * file)
  : nat * system :=
  let '(loaded_count, s) := acc in
  let '(student_id, content) := f in
  if is_generic student_id then acc
  else match content with
  | Unreadable => acc
  | Json a =>
      match student_database s !! student_id with
      | Some _ => acc
      | None =>
          match a_encodings a, a_name a with
          | Some encodings, Some name =>
              (S loaded_count,
               add_student s student_id
                 {| sd_name := name;
                    sd_encodings := encodings;
                    sd_registered_date := default now (a_registered_date a);
                    sd_image_count := default (length encodings) (a_image_count a);
                    sd_total_encodings := length encodings |})
          | _, _ => acc
          end
      end
  end.

Definition load_precomputed_encodings (s : system) (w : world) : bool * system :=
  match precomputed_encodings w with
  | None => (false, s)
  | Some dir =>
      match map_to_list dir with
      | [] => (false, s)
      | encoding_files =>
          let '(loaded_count, s') :=
            fold_left (load_file (clock w)) encoding_files (0%nat, s) in
          ((0 <? loaded_count)%nat, s')
      end
  end.

(** The world with another encodings directory. *)
Definition with_encodings (w : world) (dir : option (gmap string file)) : world :=
  {| clock := clock w;
     precomputed_encodings := dir;
     student_photos := student_photos w;
     student_database_pkl := student_database_pkl w;
     submitted := submitted w;
     json_write := json_write w;
     pickle_write := pickle_write w |}.

(** The JSON object [save_precomputed_encoding] dumps for a record. *)
Definition artifact_for (d : student_data) : file :=
  Json {| a_name := Some (sd_name d);
          a_encodings := Some (sd_encodings d);
          a_registered_date := Some (sd_registered_date d);
          a_image_count := Some (sd_image_count d);
          a_total_encodings := Some (sd_total_encodings d) |}.

(** [save_precomputed_encoding]: creates the directory when needed and
    writes [student_id].json; every exception is caught and logged, and the
    method returns nothing either way. *)
Definition save_precomputed_encoding (w : world) (student_id : string)
  (d : student_data) : world :=
  let dir := default ∅ (precomputed_encodings w) in
  match json_write w student_id with
  | Written => with_encodings w (Some (<[student_id := artifact_for d]> dir))
  | Truncated => with_encodings w (Some (<[student_id := Unreadable]> dir))
  | NotOpened => with_encodings w (Some dir)
  | NoDirectory => w
  end.

Definition finish_time (t : task) : option nat :=
  match t with
  | Returns seconds _ => Some seconds
  | Raises seconds => Some seconds
  | Hangs => None
  end.

(** [as_completed]: the futures in the order they finish, here the order
    of the time each task takes, ties in submission order.  That is the
    order on a pool with a free thread for every task; with more images than
    [max_workers] threads a later task waits for a thread and the order can
    be another one.  [register_student] only collects the results into a
    list, which the properties below describe up to the order. *)
Fixpoint insert_completed (seconds : nat) (f : string * task)
  (done : list (nat * (string * task))) : list (nat * (string * task)) :=
  match done with
  | [] => [(seconds, f)]
  | (seconds', f') :: rest =>
      if (seconds <? seconds')%nat then (seconds, f) :: (seconds', f') :: rest
      else (seconds', f') :: insert_completed seconds f rest
  end.

(** [None]: some future never completes, the loop over [as_completed]
    (and the exit of the executor's [with] block) waits for ever. *)
Fixpoint as_completed_from (futures : list (string * task))
  (done : list (nat * (string * task))) : option (list (string * task)) :=
  match futures with
  | [] => Some (map snd done)
  | f :: rest =>
      match finish_time (snd f) with
      | None => None
      | Some seconds => as_completed_from rest (insert_completed seconds f done)
      end
  end.

Definition as_completed (futures : list (string * task))
  : option (list (string * task)) :=
  as_completed_from futures [].

(** [encoding = future.result()], kept when it is not [None]; a raising
    future is logged and skipped. *)
Definition future_result (f : string * task) : option Enc :=
  match snd f with
  | Returns _ encoding => encoding
  | Raises _ => None
  | Hangs => None
  end.

(** [executor.submit(self.process_single_image, image_path)] for every
    path. *)
Definition submit_all (w : world) (image_paths : list string) : world :=
  {| clock := clock w;
     precomputed_encodings := precomputed_encodings w;
     student_photos := student_photos w;
     student_database_pkl := student_database_pkl w;
     submitted := submitted w ++ image_paths;
     json_write := json_write w;
     pickle_write := pickle_write w |}.

(** [register_student].  [None]: the call never returns. *)
Definition register_student (s : system) (w0 : world)
  (student_id student_name : string) (image_paths : list string)
  : option (bool * system * world) :=
  let future_to_image := map (fun p => (p, process_single_image p)) image_paths in
  let w := submit_all w0 image_paths in
  match as_completed future_to_image with
  | None => None
  | Some completed =>
      let all_encodings := omap future_result completed in
      let successful_images := length all_encodings in
      match all_encodings with
      | [] => Some (false, s, w)
      | _ =>
          let student_data :=
            {| sd_name := student_name;
               sd_encodings := all_encodings;
               sd_registered_date := clock w;
               sd_image_count := successful_images;
               sd_total_encodings := length all_encodings |} in
          Some (true, add_student s student_id student_data,
                save_precomputed_encoding w student_id student_data)
      end
  end.

(** One entry of [results['details']], keyed by folder name. *)
Inductive detail :=
| FromPrecomputed (student_id student_name : string)
| Registered (student_id student_name : string) (images encodings : nat)
| Failed (message : string) (images : nat).

(** [details[folder]['success']] *)
Definition detail_success (d : detail) : bool :=
  match d with
  | Failed _ _ => false
  | _ => true
  end.

Record results := Results {
  total_students : nat;
  successful : nat;
  failed : nat;
  details : gmap string detail
}.

(** The dictionary [batch_register_from_folders] returns: an early
    [{'success': False, 'message': ...}] or the results. *)
Inductive batch_result :=
| BatchFailure (message : string)
| BatchResults (r : results).

Definition add_success (r : results) (folder_name : string) (d : detail) : results :=
  {| total_students := total_students r;
     successful := S (successful r);
     failed := failed r;
     details := <[folder_name := d]> (details r) |}.

Definition add_failure (r : results) (folder_name : string) (d : detail) : results :=
  {| total_students := total_students r;
     successful := successful r;
     failed := S (failed r);
     details := <[folder_name := d]> (details r) |}.

(** [os.path.exists(os.path.join(encodings_path, f"{student_id}.json"))] *)
Definition encoding_exists (w : world) (student_id : string) : bool :=
  match precomputed_encodings w with
  | None => false
  | Some dir => bool_decide (is_Some (dir !! student_id))
  end.

(** The proper-name encoding files: those not starting with STUDENT_. *)
Definition existing_encodings (w : world) : list string :=
  match precomputed_encodings w with
  | None => []
  | Some dir => filter (fun stem => is_generic stem = false) (map_to_list dir).*1
  end.

(** The folders of student_photos whose name does not start with a dot,
    each with its images. *)
Definition student_folders (entries : list (string * option (list string)))
  : list (string * list string) :=
  omap (fun e =>
          match snd e with
          | Some images =>
              if PyStr.startswith (fst e) "." then None else Some (fst e, images)
          | None => None
          end) entries.

Definition student_id_of (folder_name : string) : string := PyStr.upper folder_name.

Definition student_name_of (folder_name : string) : string :=
  PyStr.title (PyStr.replace_underscore folder_name).

(** The loop taken when there are at least as many proper-name encodings as
    folders: nothing is processed. *)
Definition use_existing (w : world) (r : results) (folder : string * list string)
  : results :=
  let folder_name := fst folder in
  if encoding_exists w (student_id_of folder_name)
  then add_success r folder_name
         (FromPrecomputed (student_id_of folder_name) (student_name_of folder_name))
  else add_failure r folder_name (Failed "No existing encoding found" 0).

(** The loop that sets aside the students still to process. *)
Definition select_missing (w : world)
  (acc : results * list (string * list string)) (folder : string * list string)
  : results * list (string * list string) :=
  let folder_name := fst folder in
  if encoding_exists w (student_id_of folder_name)
  then (add_success (fst acc) folder_name
          (FromPrecomputed (student_id_of folder_name) (student_name_of folder_name)),
        snd acc)
  else (fst acc, snd acc ++ [folder]).

(** One iteration of the loop over [students_to_process]. *)
Definition process_folder (s : system) (w : world) (r : results)
  (folder : string * list string) : option (system * world * results) :=
  let '(folder_name, image_paths) := folder in
  match image_paths with
  | [] => Some (s, w, add_failure r folder_name (Failed "No images found" 0))
  | _ =>
      match register_student s w (student_id_of folder_name)
              (student_name_of folder_name) image_paths with
      | None => None
      | Some (true, s', w') =>
          Some (s', w',
                add_success r folder_name
                  (Registered (student_id_of folder_name)
                     (student_name_of folder_name) (length image_paths)
                     (from_option (fun d => length (sd_encodings d)) 0%nat
                        (student_database s' !! student_id_of folder_name))))
      | Some (false, s', w') =>
          Some (s', w',
                add_failure r folder_name
                  (Failed "Registration failed" (length image_paths)))
      end
  end.

Fixpoint process_folders (s : system) (w : world) (r : results)
  (students_to_process : list (string * list string))
  : option (system * world * results) :=
  match students_to_process with
  | [] => Some (s, w, r)
  | folder :: rest =>
      match process_folder s w r folder with
      | None => None
      | Some (s', w', r') => process_folders s' w' r' rest
      end
  end.

(** The world with another student_database.pkl. *)
Definition with_pickle (w : world) (pkl : option pickle_file) : world :=
  {| clock := clock w;
     precomputed_encodings := precomputed_encodings w;
     student_photos := student_photos w;
     student_database_pkl := pkl;
     submitted := submitted w;
     json_write := json_write w;
     pickle_write := pickle_write w |}.

(** [save_student_database]: the models directory exists since
    [__init__]; every exception is caught and logged. *)
Definition save_student_database (s : system) (w : world) : world :=
  match pickle_write w with
  | Written =>
      with_pickle w
        (Some (Pickled {| p_student_database := student_database s;
                          p_known_face_encodings := known_face_encodings s;
                          p_known_face_names := known_face_names s |}))
  | Truncated => with_pickle w (Some BrokenPickle)
  | NotOpened | NoDirectory => w
  end.

(** [batch_register_from_folders].  [None]: the call never returns. *)
Definition batch_register_from_folders (s : system) (w : world)
  : option (batch_result * system * world) :=
  match student_photos w with
  | None => Some (BatchFailure "Student photos directory not found", s, w)
  | Some entries =>
      match student_folders entries with
      | [] =>
          Some (BatchFailure "No student folders found in student_photos directory",
                s, w)
      | folders =>
          let r0 := {| total_students := length folders; successful := 0;
                       failed := 0; details := ∅ |} in
          if (length folders <=? length (existing_encodings w))%nat
          then Some (BatchResults (fold_left (use_existing w) folders r0), s, w)
          else
            let '(r1, students_to_process) :=
              fold_left (select_missing w) folders (r0, []) in
            match process_folders s w r1 students_to_process with
            | None => None
            | Some (s', w', r') =>
                Some (BatchResults r', s', save_student_database s' w')
            end
      end
  end.

Definition clear (s : system) : system :=
  {| face_recognition_tolerance := face_recognition_tolerance s;
     min_face_size := min_face_size s;
     encoding_timeout := encoding_timeout s;
     max_workers := max_workers s;
     known_face_encodings := [];
     known_face_names := [];
     student_database := ∅ |}.

(** [load_student_database]: precomputed encodings first, registration
    from the folders when none was loaded. *)
Definition load_student_database (s : system) (w : world)
  : option (system * world) :=
  let '(success, s1) := load_precomputed_encodings (clear s) w in
  if success then Some (s1, w)
  else match batch_register_from_folders s1 w with
       | None => None
       | Some (_, s2, w2) => Some (s2, w2)
       end.

(** *** Vocabulary for the properties *)

(** A task that completes, and one that yields an embedding. *)
Definition finishes (t : task) : Prop := is_Some (finish_time t).

Definition produces (t : task) : Prop :=
  exists seconds e, t = Returns seconds (Some e).

Definition futures_of (image_paths : list string) : list (string * task) :=
  map (fun p => (p, process_single_image p)) image_paths.

(** The embeddings the images of a student yield, in submission order. *)
Definition encodings_of (image_paths : list string) : list Enc :=
  omap (fun p => future_result (p, process_single_image p)) image_paths.

(** The record [register_student] stores for a student. *)
Definition new_student_data (student_name : string) (all_encodings : list Enc)
  (now : nat) : student_data :=
  {| sd_name := student_name;
     sd_encodings := all_encodings;
     sd_registered_date := now;
     sd_image_count := length all_encodings;
     sd_total_encodings := length all_encodings |}.

(** The persisted artifact of a student, if any. *)
Definition artifact_of (w : world) (student_id : string) : option file :=
  match precomputed_encodings w with
  | None => None
  | Some dir => dir !! student_id
  end.

(** A folder whose student has no persisted artifact. *)
Definition missing (w : world) (folder : string * list string) : Prop :=
  encoding_exists w (student_id_of (fst folder)) = false.

#[global] Instance missing_dec (w : world) folder : Decision (missing w folder).
Proof. unfold missing. apply _. Defined.

Definition tasks_finish (folders : list (string * list string)) : Prop :=
  forall folder p, folder ∈ folders -> p ∈ snd folder ->
    finishes (process_single_image p).

(** The entry of a student the batch processes: a success exactly when one
    of the images yields an embedding, with the counts of images and
    embeddings; a failure names its reason. *)
Definition processed_detail (folder : string * list string) (d : detail) : Prop :=
  (detail_success d = true <->
     exists p, p ∈ snd folder /\ produces (process_single_image p)) /\
  (detail_success d = true ->
     d = Registered (student_id_of (fst folder)) (student_name_of (fst folder))
           (length (snd folder)) (length (encodings_of (snd folder)))) /\
  (detail_success d = false ->
     d = Failed "No images found" 0 \/
     d = Failed "Registration failed" (length (snd folder))).

(** The system with another [encoding_timeout]. *)
Definition with_encoding_timeout (t : nat) (s : system) : system :=
  {| face_recognition_tolerance := face_recognition_tolerance s;
     min_face_size := min_face_size s;
     encoding_timeout := t;
     max_workers := max_workers s;
     known_face_encodings := known_face_encodings s;
     known_face_names := known_face_names s;
     student_database := student_database s |}.

(** The flattened lookup sequence, the same pairs read off the per-student
    map, and their agreement. *)
Definition flattened (s : system) : list (string * Enc) :=
  zip (known_face_names s) (known_face_encodings s).

Definition per_student (s : system) : list (string * Enc) :=
  map_to_list (student_database s) ≫=
    (fun entry => (fun e => (fst entry, e)) <$> sd_encodings (snd entry)).

Definition consistent (s : system) : Prop :=
  length (known_face_names s) = length (known_face_encodings s) /\
  flattened s ≡ₚ per_student s.

End Definitions.

Arguments student_data : clear implicits.
Arguments system : clear implicits.
Arguments artifact : clear implicits.
Arguments file : clear implicits.
Arguments pickle : clear implicits.
Arguments pickle_file : clear implicits.
Arguments world : clear implicits.
Arguments task : clear implicits.

End Gallery.

(** ** Matcher *)

Module Matcher.

Import Detection Gallery.

(** [a < b] on floats, as a boolean. *)
Definition Qlt_bool (a b : Q) : bool := negb (Qle_bool b a).

(** [np.argmin]: the first index of the least element, scanning with the
    least value and its index so far. *)
Fixpoint argmin_from (best_index : nat) (best : Q) (index : nat) (l : list Q) : nat :=
  match l with
  | [] => best_index
  | d :: rest =>
      if Qlt_bool d best then argmin_from index d (S index) rest
      else argmin_from best_index best (S index) rest
  end.

Definition argmin (l : list Q) : nat :=
  match l with
  | [] => 0%nat
  | d :: rest => argmin_from 0 d 1 rest
  end.

(** Python's [min] of a sequence; [None] for the [ValueError] on an empty
    one. *)
Definition py_min (l : list Q) : option Q :=
  match l with
  | [] => None
  | d :: rest => Some (fold_left (fun m x => if Qlt_bool x m then x else m) rest d)
  end.

Section WithDistance.

Context {Enc : Type}.

(** The Euclidean distance between two embeddings, as the library computes
    it. *)
Variable dist : Enc -> Enc -> Q.

(** [face_recognition.face_distance(known, face)] *)
Definition face_distance (known : list Enc) (face : Enc) : list Q :=
  map (fun k => dist k face) known.

(** [face_recognition.compare_faces(known, face, tolerance)], which is
    [list(face_distance(known, face) <= tolerance)]. *)
Definition compare_faces (known : list Enc) (face : Enc) (tolerance : Q) : list bool :=
  map (fun d => Qle_bool d tolerance) (face_distance known face).

(** *** The Flask path: [recognize_faces_in_image] *)

Record recognized := Recognized {
  r_student_id : string;
  r_student_name : string;
  r_confidence : Q;
  r_face_location : box
}.

(** The three accumulators of the loop. *)
Record loop_state := LoopState {
  recognized_students : list recognized;
  unknown_faces : nat;
  recognized_student_ids : gset string
}.

(** The branch one face takes through the loop body. *)
Inductive branch :=
| Recognize (student_id : string) (confidence : Q)
| LowConfidence (student_id : string) (confidence : Q)
| AlreadyRecognized (student_id : string)
| BestNotMatching
| NoMatch
| NameIndexError.

Definition branch_of (s : system Enc) (ids : gset string) (face_encoding : Enc)
  : branch :=
  let matches :=
    compare_faces (known_face_encodings s) face_encoding
      (face_recognition_tolerance s) in
  if existsb (fun m => m) matches then
    let face_distances := face_distance (known_face_encodings s) face_encoding in
    let best_match_index := argmin face_distances in
    if default false (matches !! best_match_index) then
      match known_face_names s !! best_match_index with
      | None => NameIndexError
      | Some student_id =>
          if bool_decide (student_id ∈ ids) then AlreadyRecognized student_id
          else
            let confidence := (1 - default 0 (face_distances !! best_match_index))%Q in
            if Qlt_bool 0.35 confidence then Recognize student_id confidence
            else LowConfidence student_id confidence
      end
    else BestNotMatching
  else NoMatch.

(** [student_info.get('name', 'Unknown')] with
    [student_info = student_database.get(student_id, {})] *)
Definition student_name (s : system Enc) (student_id : string) : string :=
  from_option sd_name "Unknown" (student_database s !! student_id).

(** One iteration; [None] when the body raises: the only statement that
    can is [known_face_names[best_match_index]], with IndexError. *)
Definition loop_body (s : system Enc) (st : loop_state) (face : box * Enc)
  : option loop_state :=
  match branch_of s (recognized_student_ids st) (snd face) with
  | Recognize student_id confidence =>
      Some {| recognized_students :=
                recognized_students st ++
                  [{| r_student_id := student_id;
                      r_student_name := student_name s student_id;
                      r_confidence := confidence;
                      r_face_location := fst face |}];
              unknown_faces := unknown_faces st;
              recognized_student_ids := {[student_id]} ∪ recognized_student_ids st |}
  | LowConfidence _ _ =>
      Some {| recognized_students := recognized_students st;
              unknown_faces := S (unknown_faces st);
              recognized_student_ids := recognized_student_ids st |}
  | AlreadyRecognized _ => Some st
  | BestNotMatching | NoMatch =>
      Some {| recognized_students := recognized_students st;
              unknown_faces := S (unknown_faces st);
              recognized_student_ids := recognized_student_ids st |}
  | NameIndexError => None
  end.

Fixpoint loop (s : system Enc) (st : loop_state) (faces : list (box * Enc))
  : option loop_state :=
  match faces with
  | [] => Some st
  | face :: rest =>
      match loop_body s st face with
      | None => None
      | Some st' => loop s st' rest
      end
  end.

Definition initial_state : loop_state :=
  {| recognized_students := []; unknown_faces := 0; recognized_student_ids := ∅ |}.

(** The dictionary returned: ['success': False] with a message (for an
    exception, 'Error processing image: ' and [str(e)]), or the lists and
    counts. *)
Inductive recognition :=
| RecognitionFailure (message : string)
| Recognition (students : list recognized)
    (total_faces recognized_count unknown : nat).

(** [recognize_faces_in_image] from the detected faces on: each face
    location comes with its encoding. *)
Definition recognize_faces_in_image (s : system Enc) (faces : list (box * Enc))
  : recognition :=
  match faces with
  | [] => RecognitionFailure "No faces detected in the image"
  | _ =>
      match loop s initial_state faces with
      | None =>
          RecognitionFailure "Error processing image: list index out of range"
      | Some st =>
          Recognition (recognized_students st) (length faces)
            (length (recognized_students st)) (unknown_faces st)
      end
  end.

(** *** The simple path: [SimpleAttendanceSystem.detect_faces_in_image] *)

(** [student_encodings] is a dictionary iterated in insertion order. *)
Record simple_system := SimpleSystem {
  student_encodings : list (string * list Enc);
  student_names : gmap string string
}.

Record simple_result := SimpleResult {
  student_id : string;
  name : string;
  confidence : Q;
  face_location : box
}.

(** The inner loop over the students: [best_match] and [best_distance];
    [None] when [min] raises on a student without encodings. *)
Fixpoint best_student (students : list (string * list Enc)) (face_encoding : Enc)
  (best_match : option string) (best_distance : Q) : option (option string * Q) :=
  match students with
  | [] => Some (best_match, best_distance)
  | (sid, encodings) :: rest =>
      match py_min (face_distance encodings face_encoding) with
      | None => None
      | Some min_distance =>
          if Qlt_bool min_distance best_distance
          then best_student rest face_encoding (Some sid) min_distance
          else best_student rest face_encoding best_match best_distance
      end
  end.

(** The truth value of [best_match]: [None] and the empty string are
    false. *)
Definition truthy (best_match : option string) : option string :=
  match best_match with
  | Some "" => None
  | other => other
  end.

Definition unknown_result (loc : box) : simple_result :=
  {| student_id := "Unknown"; name := "Unknown"; confidence := 0;
     face_location := loc |}.

(** One face; [None] when [min] or [student_names[best_match]] raises. *)
Definition match_face (s : simple_system) (face : box * Enc) : option simple_result :=
  match best_student (student_encodings s) (snd face) None 1 with
  | None => None
  | Some (best_match, best_distance) =>
      match truthy best_match with
      | Some sid =>
          if Qlt_bool best_distance 0.6 then
            match student_names s !! sid with
            | None => None
            | Some student_name =>
                Some {| student_id := sid; name := student_name;
                        confidence := 1 - best_distance;
                        face_location := fst face |}
            end
          else Some (unknown_result (fst face))
      | None => Some (unknown_result (fst face))
      end
  end.

(** [detect_faces_in_image] from the detected faces on; [None] when an
    exception leaves the function. *)
Definition detect_faces_in_image (s : simple_system) (faces : list (box * Enc))
  : option (list simple_result) :=
  mapM (match_face s) faces.

(** *** Vocabulary for the properties *)

(** The recognised ids are exactly the ids of the results, each once. *)
Definition tracked (st : loop_state) : Prop :=
  NoDup (r_student_id <$> recognized_students st) /\
  forall student_id,
    student_id ∈ recognized_student_ids st <->
    student_id ∈ r_student_id <$> recognized_students st.

(** A [SimpleAttendanceSystem] as [load_encodings] builds it from a file
    of registered students: every student has an encoding, a name and a
    non-empty id. *)
Definition simple_ok (s : simple_system) : Prop :=
  forall sid encodings, (sid, encodings) ∈ student_encodings s ->
    encodings <> [] /\ sid <> "" /\ is_Some (student_names s !! sid).

End WithDistance.

Arguments simple_system : clear implicits.

End Matcher.

(** ** Attendance recorder *)

Module Recorder.

(** The Python objects the two recording methods pass as SQL parameters:
    [str], [float], [datetime.date] and [datetime.time] (days and seconds
    stand for the readings of the clock). *)
Inductive py_value :=
| PyStr (s : string)
| PyFloat (x : Q)
| PyDate (day : nat)
| PyTime (seconds : nat).

(** What SQLite stores in a column. *)
Inductive sql_value :=
| SqlText (s : string)
| SqlReal (x : Q)
| SqlIsoDate (day : nat).

#[global] Instance Q_eq_dec : EqDecision Q.
Proof. solve_decision. Defined.

#[global] Instance sql_value_eq_dec : EqDecision sql_value.
Proof. solve_decision. Defined.

(** How the sqlite3 module binds a parameter.  [str] and [float] are bound
    as they are; a [datetime.date] goes through the adapter the module
    registers by default and is stored as its ISO text.  There is no default
    adapter for [datetime.time], and the repository registers none
    ([sqlite3.register_adapter] is called nowhere): binding one raises
    sqlite3.ProgrammingError (InterfaceError before Python 3.11). *)
Definition adapt (v : py_value) : option sql_value :=
  match v with
  | PyStr s => Some (SqlText s)
  | PyFloat x => Some (SqlReal x)
  | PyDate day => Some (SqlIsoDate day)
  | PyTime _ => None
  end.

(** A row of the attendance table: the AUTOINCREMENT id and the five
    columns the INSERT names. *)
Record row := Row {
  row_id : nat;
  row_student_id : sql_value;
  row_date : sql_value;
  row_time : sql_value;
  row_confidence : sql_value;
  row_image_path : sql_value
}.

(** The attendance table of attendance.db, as the two recording methods
    create it: no constraint besides the primary key.  The schema of
    database_init.py, which adds UNIQUE(student_id, date), is never applied:
    that module does not parse (its line 40 is indented one column too far)
    and nothing imports it. *)
Record table := Table {
  rows : list row;
  next_id : nat
}.

(** The database file: [None] while the table does not exist. *)
Definition database := option table.

(** The CREATE TABLE IF NOT EXISTS of [mark_attendance] and
    [mark_attendance_batch].  The statement runs outside any transaction and
    its effect stays when a later statement raises. *)
Definition create_table_if_not_exists (db : database) : table :=
  match db with
  | Some t => t
  | None => {| rows := []; next_id := 1 |}
  end.

(** [cursor.execute('INSERT INTO attendance (student_id, date, time,
    confidence, image_path) VALUES (?, ?, ?, ?, ?)', parameters)]: [None]
    when a parameter cannot be bound; nothing is stored then. *)
Definition insert (t : table) (student_id date time confidence image_path : py_value)
  : option table :=
  match adapt student_id, adapt date, adapt time, adapt confidence,
        adapt image_path with
  | Some a, Some b, Some c, Some d, Some e =>
      Some {| rows := rows t ++
                [{| row_id := next_id t; row_student_id := a; row_date := b;
                    row_time := c; row_confidence := d; row_image_path := e |}];
              next_id := S (next_id t) |}
  | _, _, _, _, _ => None
  end.

(** How a call ends: it returns, or an exception leaves it. *)
Inductive outcome :=
| Returned (value : bool)
| BindingError
| KeyError.

(** [SimpleAttendanceSystem.mark_attendance] at date [today] and time
    [now]: the parameters are [student_id], [datetime.now().date()],
    [datetime.now().time()], [confidence] and [image_path].  Nothing catches
    an exception of [execute]; the uncommitted transaction is dropped with
    the connection.  The final [print] looks the name up after the
    commit. *)
Definition mark_attendance (student_names : gmap string string) (db : database)
  (today now : nat) (student_id : string) (confidence : Q) (image_path : string)
  : outcome * database :=
  if bool_decide (student_id = "Unknown") then (Returned false, db)
  else
    let t := create_table_if_not_exists db in
    match insert t (PyStr student_id) (PyDate today) (PyTime now)
            (PyFloat confidence) (PyStr image_path) with
    | None => (BindingError, Some t)
    | Some t' =>
        match student_names !! student_id with
        | None => (KeyError, Some t')
        | Some _ => (Returned true, Some t')
        end
    end.

(** The loop of [mark_attendance_batch]: one INSERT per result that is not
    Unknown, all in one transaction; [None] when an INSERT raises. *)
Fixpoint insert_all (t : table) (today now : nat) (image_path : string)
  (results : list (string * Q)) : option table :=
  match results with
  | [] => Some t
  | (student_id, confidence) :: rest =>
      if bool_decide (student_id = "Unknown")
      then insert_all t today now image_path rest
      else match insert t (PyStr student_id) (PyDate today) (PyTime now)
                   (PyFloat confidence) (PyStr image_path) with
           | None => None
           | Some t' => insert_all t' today now image_path rest
           end
  end.

(** [OpenCVAttendanceSystem.mark_attendance_batch] on the
    [(student_id, confidence)] of each result; it returns nothing, and
    [None] here is an exception leaving it, before the commit. *)
Definition mark_attendance_batch (db : database) (today now : nat)
  (results : list (string * Q)) (image_path : string) : option unit * database :=
  let t := create_table_if_not_exists db in
  match insert_all t today now image_path results with
  | None => (None, Some t)
  | Some t' => (Some tt, Some t')
  end.

(** The persisted records keyed [(student_id, date)]. *)
Definition same_key (student_id : string) (date : nat) (r : row) : Prop :=
  row_student_id r = SqlText student_id /\ row_date r = SqlIsoDate date.

Definition records (db : database) (student_id : string) (date : nat) : list row :=
  match db with
  | None => []
  | Some t => filter (same_key student_id date) (rows t)
  end.

End Recorder.

(** ** Sample inputs

    Embeddings on a line, the distance being the absolute difference; a
    few images with what their encoding task does; directories. *)

Module Samples.

Import Detection Gallery.

Local Open Scope Q_scope.

Definition line_dist (a b : Q) : Q := Qabs (a - b).

Definition sample_task (p : string) : task Q :=
  if String.eqb p "ann/1.jpg" then Returns 1 (Some 0)
  else if String.eqb p "ann/2.jpg" then Returns 100 (Some 0.1)
  else if String.eqb p "bob/1.jpg" then Returns 2 None
  else if String.eqb p "cy/1.jpg" then Hangs
  else if String.eqb p "dan/1.jpg" then Returns 1 (Some 2)
  else Raises 1.

Definition photos_ann_bob : list (string * option (list string)) :=
  [("ann", Some ["ann/1.jpg"]); ("bob", Some ["bob/1.jpg"]);
   (".cache", Some []); ("notes.txt", None)].

Definition photos_cy_dan : list (string * option (list string)) :=
  [("cy", Some ["cy/1.jpg"]); ("dan", Some ["dan/1.jpg"])].

(** Nothing persisted yet. *)
Definition fresh_world : world Q :=
  {| clock := 5;
     precomputed_encodings := None;
     student_photos := Some photos_ann_bob;
     student_database_pkl := None;
     submitted := [];
     json_write := fun _ => Written;
     pickle_write := Written |}.

Definition stalled_world : world Q :=
  {| clock := 5;
     precomputed_encodings := None;
     student_photos := Some photos_cy_dan;
     student_database_pkl := None;
     submitted := [];
     json_write := fun _ => Written;
     pickle_write := Written |}.

Definition ann_artifact : file Q :=
  Json {| a_name := Some "Ann";
          a_encodings := Some [0];
          a_registered_date := Some 3%nat;
          a_image_count := Some 1%nat;
          a_total_encodings := Some 1%nat |}.

(** ANN.json is there from an earlier run. *)
Definition persisted_world : world Q :=
  {| clock := 5;
     precomputed_encodings := Some {[ "ANN" := ann_artifact ]};
     student_photos := Some photos_ann_bob;
     student_database_pkl := None;
     submitted := [];
     json_write := fun _ => Written;
     pickle_write := Written |}.

Definition eve_artifact : file Q :=
  Json {| a_name := Some "Eve";
          a_encodings := Some [7];
          a_registered_date := Some 2%nat;
          a_image_count := Some 1%nat;
          a_total_encodings := Some 1%nat |}.

Definition photos_ann_dan : list (string * option (list string)) :=
  [("ann", Some ["ann/1.jpg"]); ("dan", Some ["dan/1.jpg"])].

(** ANN.json and EVE.json are there from earlier runs; Eve's folder is
    gone and Dan's is new: as many artifacts as folders. *)
Definition crowded_world : world Q :=
  {| clock := 5;
     precomputed_encodings := Some {[ "ANN" := ann_artifact; "EVE" := eve_artifact ]};
     student_photos := Some photos_ann_dan;
     student_database_pkl := None;
     submitted := [];
     json_write := fun _ => Written;
     pickle_write := Written |}.

(** The encodings directory does not take new files. *)
Definition locked_world : world Q :=
  {| clock := 5;
     precomputed_encodings := Some ∅;
     student_photos := Some photos_ann_bob;
     student_database_pkl := None;
     submitted := [];
     json_write := fun _ => NotOpened;
     pickle_write := Written |}.

Definition face_box : box := Box 0 40 40 0.

Definition other_box : box := Box 0 140 40 100.

(** Ann at 0 and Bob at 2, in the gallery of the Flask path and in the
    dictionaries of the simple path. *)
Definition ann_bob_system : system Q :=
  add_student
    (add_student default_system "ANN" (new_student_data "Ann" [0] 5))
    "BOB" (new_student_data "Bob" [2] 5).

Definition simple_ann_bob : Matcher.simple_system Q :=
  {| Matcher.student_encodings := [("ANN", [0]); ("BOB", [2])];
     Matcher.student_names := {[ "ANN" := "Ann"; "BOB" := "Bob" ]} |}.

Definition ann_bob_names : gmap string string :=
  {[ "ANN" := "Ann"; "BOB" := "Bob" ]}.

End Samples.

(** ** Callers and vocabulary for the further properties *)

(** The order [filter_and_validate_faces] sorts into: larger area first. *)
Module DetectionOrder.

Import Detection.

Definition by_area_desc (a b : box) : Prop := (area b <= area a)%Z.

End DetectionOrder.

(** What one artifact file contributes when it is loaded. *)
Module Persistence.

Import Gallery.

Section Definitions.

Context {Enc : Type}.

(** The record [load_precomputed_encodings] builds from the file of
    [student_id], [None] when the file is skipped: an old generic file, an
    unreadable one, one without 'encodings' or 'name'. *)
Definition loadable (now : nat) (student_id : string) (content : file Enc)
  : option (student_data Enc) :=
  if is_generic student_id then None
  else match content with
  | Unreadable => None
  | Json a =>
      match a_encodings a, a_name a with
      | Some encodings, Some name =>
          Some {| sd_name := name;
                  sd_encodings := encodings;
                  sd_registered_date := default now (a_registered_date a);
                  sd_image_count := default (length encodings) (a_image_count a);
                  sd_total_encodings := length encodings |}
      | _, _ => None
      end
  end.

End Definitions.

End Persistence.

(** [allowed_file] of flask_api.py. *)
Module Uploads.

(** [str.lower()] on ASCII. *)
Fixpoint lower (s : string) : string :=
  match s with
  | EmptyString => EmptyString
  | String c rest => String (PyStr.to_lower c) (lower rest)
  end.

(** ['.' in s] *)
Fixpoint contains_dot (s : string) : bool :=
  match s with
  | EmptyString => false
  | String c rest => Ascii.eqb c "." || contains_dot rest
  end.

(** [s.rsplit('.', 1)[1]]: what follows the last dot; [None] when [s] has
    no dot and the index would fail. *)
Fixpoint after_last_dot (s : string) : option string :=
  match s with
  | EmptyString => None
  | String c rest =>
      match after_last_dot rest with
      | Some extension => Some extension
      | None => if Ascii.eqb c "." then Some rest else None
      end
  end.

Definition ALLOWED_EXTENSIONS : gset string := {[ "png"; "jpg"; "jpeg" ]}.

Definition allowed_file (filename : string) : bool :=
  contains_dot filename &&
  match after_last_dot filename with
  | Some extension => bool_decide (lower extension ∈ ALLOWED_EXTENSIONS)
  | None => false
  end.

End Uploads.

(** [SimpleAttendanceSystem.process_classroom_photo] and sequences of
    [mark_attendance] calls. *)
Module Classroom.

Import Detection Matcher Recorder.

(** All rows of the attendance table, none while it does not exist. *)
Definition all_rows (db : database) : list row :=
  match db with
  | None => []
  | Some t => rows t
  end.

(** One call of [mark_attendance], with the date and time it runs at. *)
Record mark_call := MarkCall {
  call_today : nat;
  call_now : nat;
  call_student_id : string;
  call_confidence : Q;
  call_image_path : string
}.

(** The database after a sequence of calls, whatever each call returns or
    raises. *)
Definition run_marks (student_names : gmap string string) (db : database)
  (calls : list mark_call) : database :=
  fold_left
    (fun db c =>
       snd (mark_attendance student_names db (call_today c) (call_now c)
              (call_student_id c) (call_confidence c) (call_image_path c)))
    calls db.

Section WithDistance.

Context {Enc : Type}.

Variable dist : Enc -> Enc -> Q.

(** The loop of [process_classroom_photo] over the results: the first
    call that raises ends it, with what was committed before. *)
Fixpoint mark_results (student_names : gmap string string) (db : database)
  (today now : nat) (image_path : string) (results : list simple_result)
  : option outcome * database :=
  match results with
  | [] => (None, db)
  | result :: rest =>
      if bool_decide (student_id result = "Unknown")
      then mark_results student_names db today now image_path rest
      else
        match mark_attendance student_names db today now (student_id result)
                (confidence result) image_path with
        | (Returned _, db') =>
            mark_results student_names db' today now image_path rest
        | (raised, db') => (Some raised, db')
        end
  end.

(** How [process_classroom_photo] ends: it returns nothing for a missing
    image or a frame without results, returns the results, or lets an
    exception through, of the matching or of a [mark_attendance] call. *)
Inductive photo_outcome :=
| ImageNotFound
| NoFaces
| PhotoResults (results : list simple_result)
| MatchingRaised
| MarkingRaised (raised : outcome).

(** [process_classroom_photo] from the detected faces on, at one reading
    of the clock. *)
Definition process_classroom_photo (s : simple_system Enc) (db : database)
  (today now : nat) (image_exists : bool) (faces : list (box * Enc))
  (image_path : string) : photo_outcome * database :=
  if negb image_exists then (ImageNotFound, db)
  else match detect_faces_in_image dist s faces with
  | None => (MatchingRaised, db)
  | Some [] => (NoFaces, db)
  | Some results =>
      match mark_results (student_names s) db today now image_path results with
      | (None, db') => (PhotoResults results, db')
      | (Some raised, db') => (MarkingRaised raised, db')
      end
  end.

(** The results that name a student. *)
Definition named (results : list simple_result) : list simple_result :=
  filter (fun r => student_id r <> "Unknown") results.

End WithDistance.

End Classroom.

(** What backs an entry of [recognized_students]. *)
Module Recognition.

Import Detection Gallery Matcher.

Section WithDistance.

Context {Enc : Type}.

Variable dist : Enc -> Enc -> Q.

(** A listed student goes back to a face of the frame whose nearest
    gallery embedding is within the tolerance and carries the student's
    id. *)
Definition grounded (s : system Enc) (faces : list (box * Enc)) (r : recognized)
  : Prop :=
  exists loc face d,
    (loc, face) ∈ faces /\
    r_face_location r = loc /\
    face_distance dist (known_face_encodings s) face
      !! argmin (face_distance dist (known_face_encodings s) face) = Some d /\
    (d <= face_recognition_tolerance s)%Q /\
    r_confidence r = (1 - d)%Q /\
    (0.35 < r_confidence r)%Q /\
    known_face_names s
      !! argmin (face_distance dist (known_face_encodings s) face)
      = Some (r_student_id r) /\
    r_student_name r = student_name s (r_student_id r).

End WithDistance.

End Recognition.

(** [OpenCVAttendanceSystem.process_classroom_photo] of opencv_only_system.py. *)
Module OpenCV.

Import Matcher Recorder.

(** A face rectangle of [detectMultiScale]: (x, y, w, h). *)
Record rect := Rect { rect_x : Z; rect_y : Z; rect_w : Z; rect_h : Z }.

Record opencv_result := OpenCVResult {
  face_id : nat;
  o_student_id : string;
  o_name : string;
  o_confidence : Q;
  face_rect : rect
}.

Section WithSimilarity.

(** The features [extract_face_features] computes for a face. *)
Context {Feat : Type}.

(** The correlation of a face with the first face of a student's photo;
    [None] when the photo cannot be read, shows no face, or the comparison
    raises: the loop then goes on to the next student. *)
Variable similarity : Feat -> string -> option Q.

(** The loop over [student_photos], a dictionary from student id to name
    (and photo path), in insertion order. *)
Fixpoint best_photo (student_photos : list (string * string)) (face : Feat)
  (best_match : option string) (best_similarity : Q) : option string * Q :=
  match student_photos with
  | [] => (best_match, best_similarity)
  | (sid, _) :: rest =>
      match similarity face sid with
      | None => best_photo rest face best_match best_similarity
      | Some s =>
          if Qlt_bool best_similarity s then best_photo rest face (Some sid) s
          else best_photo rest face best_match best_similarity
      end
  end.

(** [student_photos[best_match]['name']]; [best_match] is a key of the
    dictionary. *)
Definition photo_name (student_photos : list (string * string)) (sid : string)
  : string :=
  default "" ((list_to_map student_photos : gmap string string) !! sid).

(** The result for face number [i] (from 0). *)
Definition match_photo (student_photos : list (string * string)) (i : nat)
  (face : rect * Feat) : opencv_result :=
  let '(best_match, best_similarity) :=
    best_photo student_photos (snd face) None 0 in
  match truthy best_match with
  | Some sid =>
      if Qlt_bool 0.7 best_similarity
      then {| face_id := S i; o_student_id := sid;
              o_name := photo_name student_photos sid;
              o_confidence := best_similarity; face_rect := fst face |}
      else {| face_id := S i; o_student_id := "Unknown"; o_name := "Unknown";
              o_confidence := best_similarity; face_rect := fst face |}
  | None =>
      {| face_id := S i; o_student_id := "Unknown"; o_name := "Unknown";
         o_confidence := best_similarity; face_rect := fst face |}
  end.

(** [for i, face_rect in enumerate(faces)] *)
Definition match_photos (student_photos : list (string * string))
  (faces : list (rect * Feat)) : list opencv_result :=
  imap (match_photo student_photos) faces.

(** How the call ends: it returns nothing for a missing or unreadable
    image or a frame without faces, returns the results, or lets the
    exception of [mark_attendance_batch] through. *)
Inductive opencv_outcome :=
| NotProcessed
| OpenCVResults (results : list opencv_result)
| BatchRaised.

Definition process_classroom_photo (student_photos : list (string * string))
  (db : database) (today now : nat) (image_readable : bool)
  (faces : list (rect * Feat)) (image_path : string)
  : opencv_outcome * database :=
  if negb image_readable then (NotProcessed, db)
  else match faces with
  | [] => (NotProcessed, db)
  | _ =>
      let results := match_photos student_photos faces in
      match mark_attendance_batch db today now
              ((fun r => (o_student_id r, o_confidence r)) <$> results)
              image_path with
      | (None, db') => (BatchRaised, db')
      | (Some _, db') => (OpenCVResults results, db')
      end
  end.

End WithSimilarity.

End OpenCV.

(** Inputs on which the OpenCV path is run in the examples: features are
    stood for by a number; Ann's photo correlates at 0.9 with face 1 and at
    0.2 with any other, Bob's photo cannot be read. *)
Module OpenCVSamples.

Import OpenCV.

Local Open Scope Q_scope.

Definition class_photos : list (string * string) := [("ANN", "Ann"); ("BOB", "Bob")].

Definition sample_similarity (face : nat) (student_id : string) : option Q :=
  if String.eqb student_id "ANN"
  then Some (if Nat.eqb face 1 then 0.9 else 0.2)
  else None.

Definition class_faces : list (rect * nat) :=
  [(Rect 0 0 10 10, 1%nat); (Rect 20 0 10 10, 2%nat)].

End OpenCVSamples.

(** * Properties *)

(** ** Detection merger *)

Module DetectionFacts.

Import Detection.

Local Open Scope Z_scope.

Lemma dist2_nonneg c1 c2 : 0 <= dist2 c1 c2.
Proof. unfold dist2. nia. Qed.

Lemma dist2_sym c1 c2 : dist2 c1 c2 = dist2 c2 c1.
Proof. unfold dist2. ring. Qed.

Lemma min_size_sym b1 b2 : min_size b1 b2 = min_size b2 b1.
Proof. unfold min_size. apply Z.min_comm. Qed.

Lemma too_close_sym b1 b2 : too_close b1 b2 = too_close b2 b1.
Proof.
  unfold too_close.
  by rewrite (min_size_sym b1 b2), (dist2_sym (center b1) (center b2)).
Qed.

(** The integer test decides the comparison the code makes on floats,
    read on the reals: [sqrt d2 < m * 0.5]. *)
Lemma half_sqrt_lt (d2 m : Z) :
  0 <= d2 ->
  (sqrt (IZR d2) < 0.5 * IZR m)%R <-> (0 < m /\ 4 * d2 < m * m).
Proof.
  intros Hd2. apply IZR_le in Hd2.
  split.
  - intros Hlt.
    pose proof (sqrt_pos (IZR d2)) as Hpos.
    pose proof (sqrt_sqrt (IZR d2) Hd2) as Hsq.
    assert (Hm : (0 < IZR m)%R) by Lra.lra.
    split; [by apply lt_IZR|].
    apply lt_IZR. rewrite !mult_IZR.
    assert (sqrt (IZR d2) * sqrt (IZR d2) < (0.5 * IZR m) * (0.5 * IZR m))%R
      by (apply Rmult_le_0_lt_compat; Lra.lra).
    Lra.lra.
  - intros [Hm Hlt].
    apply IZR_lt in Hm. apply IZR_lt in Hlt. rewrite !mult_IZR in Hlt.
    replace (0.5 * IZR m)%R with (sqrt ((0.5 * IZR m) * (0.5 * IZR m)))
      by (apply sqrt_square; Lra.lra).
    apply sqrt_lt_1; [Lra.lra | Lra.nra | Lra.lra].
Qed.

Lemma too_close_sqrt (face existing : box) :
  too_close face existing = true <->
  (sqrt (IZR (dist2 (center face) (center existing)))
     < 0.5 * IZR (min_size face existing))%R.
Proof.
  rewrite half_sqrt_lt by apply dist2_nonneg.
  unfold too_close. rewrite andb_true_iff, !Z.ltb_lt. tauto.
Qed.

(** The loop only ever appends to [unique_faces]. *)
Lemma dedup_loop_prefix faces unique_faces :
  exists kept, dedup_loop faces unique_faces = unique_faces ++ kept.
Proof.
  revert unique_faces. induction faces as [|face rest IH]; intros unique_faces.
  - exists []. by rewrite app_nil_r.
  - simpl. destruct (is_duplicate face unique_faces).
    + apply IH.
    + destruct (IH (unique_faces ++ [face])) as [kept ->].
      exists (face :: kept). by rewrite <- app_assoc.
Qed.

Lemma separated_snoc l face :
  separated l -> is_duplicate face l = false -> separated (l ++ [face]).
Proof.
  intros Hsep Hdup i j a b Hij Hi Hj.
  assert (Hlen : (j < length (l ++ [face]))%nat) by (eapply lookup_lt_Some; eauto).
  rewrite length_app in Hlen. simpl in Hlen.
  rewrite lookup_app_l in Hi by lia.
  destruct (decide (j < length l)%nat) as [Hjl|Hjl].
  - rewrite lookup_app_l in Hj by done. eauto.
  - assert (j = length l) as -> by lia.
    rewrite list_lookup_middle in Hj by done. injection Hj as <-.
    unfold is_duplicate in Hdup.
    destruct (too_close face a) eqn:Hc; [|done].
    assert (existsb (too_close face) l = true); [|congruence].
    apply existsb_exists. exists a. split; [|done].
    apply list_elem_of_In. eapply list_elem_of_lookup_2; eauto.
Qed.

Lemma dedup_loop_separated faces unique_faces :
  separated unique_faces -> separated (dedup_loop faces unique_faces).
Proof.
  revert unique_faces. induction faces as [|face rest IH]; intros unique_faces Hsep.
  - done.
  - simpl. destruct (is_duplicate face unique_faces) eqn:Hdup.
    + by apply IH.
    + apply IH. by apply separated_snoc.
Qed.

Lemma remove_duplicate_faces_separated faces :
  (2 <= length faces)%nat -> separated (remove_duplicate_faces faces).
Proof.
  intros Hlen. unfold remove_duplicate_faces.
  destruct (Nat.leb_spec (length faces) 1); [lia|].
  apply dedup_loop_separated. intros i j a b _ Hi. by rewrite lookup_nil in Hi.
Qed.

(** C6, as the code has it.  Of two boxes whose integer midpoints are
    closer than half the smaller size, [remove_duplicate_faces] keeps
    exactly the first received; the merger then returns that box when it is
    at least [min_face_size] wide and high, and no box otherwise.  The
    midpoints are the floor-divided ones the code computes, the distance
    between them is Euclidean, and the size of a box is the larger of its
    width and height. *)
Theorem close_pair_merged (min_face_size : Z) (b1 b2 : box) :
  (sqrt (IZR (dist2 (center b1) (center b2)))
     < 0.5 * IZR (Z.min (face_size b1) (face_size b2)))%R ->
  remove_duplicate_faces [b1; b2] = [b1] /\
  merge_detections min_face_size [b1; b2]
  = (if valid_size min_face_size b1 then [b1] else []).
Proof.
  intros Hclose. apply too_close_sqrt in Hclose.
  rewrite too_close_sym in Hclose.
  unfold merge_detections, filter_and_validate_faces, remove_duplicate_faces.
  simpl. rewrite Hclose. split; [done|]. simpl.
  destruct (valid_size min_face_size b1) eqn:Hvalid.
  - rewrite filter_cons_True by done. by rewrite filter_nil.
  - rewrite filter_cons_False by (by rewrite Hvalid). by rewrite filter_nil.
Qed.

Lemma close_pair_merged_witness :
  remove_duplicate_faces [Box 0 40 40 0; Box 2 43 42 3] = [Box 0 40 40 0] /\
  merge_detections 35 [Box 0 40 40 0; Box 2 43 42 3] = [Box 0 40 40 0].
Proof.
  apply (close_pair_merged 35 (Box 0 40 40 0) (Box 2 43 42 3)).
  apply too_close_sqrt. reflexivity.
Defined.

(** When the two boxes are not that close, both are kept. *)
Lemma remove_duplicate_faces_far_pair (b1 b2 : box) :
  too_close b2 b1 = false -> remove_duplicate_faces [b1; b2] = [b1; b2].
Proof. intros Hfar. unfold remove_duplicate_faces. simpl. by rewrite Hfar. Qed.

(** A square root is below a positive bound when the number is below the
    square of the bound. *)
Lemma sqrt_lt_bound (x y : R) : (0 <= x)%R -> (0 < y)%R -> (x < y * y)%R ->
  (sqrt x < y)%R.
Proof.
  intros Hx Hy Hlt. rewrite <- (sqrt_square y) by Lra.lra.
  apply sqrt_lt_1; [done|Lra.nra|done].
Qed.

(** C6 as stated fails, in two ways.  The centres of a 39 by 40 box and
    of a 40 by 40 box lie 19.5 apart, less than half the smaller size 40:
    the claim has one box retained, but the code measures the floor-divided
    midpoints, 20 apart, and keeps both.  And of a 30 by 30 and a 40 by 40
    box with close centres the merger retains none under the default
    [min_face_size] of 35: the first box wins the merge and then falls to the
    size filter. *)
Theorem close_centers_not_merged :
  (Geometry.center_distance (Box 0 39 40 0) (Box 0 59 40 19)
     < 0.5 * IZR (Z.min (face_size (Box 0 39 40 0)) (face_size (Box 0 59 40 19))))%R /\
  remove_duplicate_faces [Box 0 39 40 0; Box 0 59 40 19]
  = [Box 0 39 40 0; Box 0 59 40 19] /\
  merge_detections 35 [Box 0 39 40 0; Box 0 59 40 19]
  = [Box 0 59 40 19; Box 0 39 40 0] /\
  (Geometry.center_distance (Box 0 30 30 0) (Box 0 40 40 0)
     < 0.5 * IZR (Z.min (face_size (Box 0 30 30 0)) (face_size (Box 0 40 40 0))))%R /\
  merge_detections 35 [Box 0 30 30 0; Box 0 40 40 0] = [].
Proof.
  split; [|split; [done|split; [done|split; [|done]]]].
  - unfold Geometry.center_distance, Geometry.true_center.
    change (Z.min _ _) with 40%Z. simpl.
    apply sqrt_lt_bound; Lra.lra.
  - unfold Geometry.center_distance, Geometry.true_center.
    change (Z.min _ _) with 30%Z. simpl.
    apply sqrt_lt_bound; Lra.lra.
Qed.

End DetectionFacts.


(** ** Registration pipeline *)

Module RegistrationFacts.

Import Gallery.

Section Facts.

Context {Enc : Type}.

Variable process_single_image : string -> task Enc.


Lemma insert_completed_perm seconds (f : string * task Enc) done :
  insert_completed seconds f done ≡ₚ (seconds, f) :: done.
Proof.
  induction done as [|[seconds' f'] rest IH]; simpl; [done|].
  destruct (seconds <? seconds')%nat; [done|].
  rewrite IH. apply Permutation_swap.
Qed.

Lemma as_completed_from_finishes (futures : list (string * task Enc)) done :
  Forall (fun f => finishes (snd f)) futures ->
  exists completed,
    as_completed_from futures done = Some completed /\
    completed ≡ₚ map snd done ++ futures.
Proof.
  revert done. induction futures as [|f rest IH]; intros done Hall; simpl.
  - exists (map snd done). by rewrite app_nil_r.
  - inversion Hall as [|? ? [seconds Hf] Hrest]; subst. rewrite Hf.
    destruct (IH (insert_completed seconds f done) Hrest) as (completed & -> & Hperm).
    exists completed. split; [done|].
    rewrite Hperm, insert_completed_perm. simpl.
    by rewrite Permutation_middle.
Qed.

Lemma as_completed_from_hangs (futures : list (string * task Enc)) done :
  Exists (fun f => snd f = Hangs) futures ->
  as_completed_from futures done = None.
Proof.
  revert done. induction futures as [|f rest IH]; intros done Hex; simpl.
  - inversion Hex.
  - inversion Hex as [? ? Hf|? ? Hrest]; subst.
    + by rewrite Hf.
    + destruct (finish_time (snd f)); [by apply IH|done].
Qed.

Lemma omap_futures_of image_paths :
  omap future_result (futures_of process_single_image image_paths)
  = encodings_of process_single_image image_paths.
Proof.
  unfold futures_of, encodings_of.
  induction image_paths as [|p rest IH]; [done|].
  cbn. rewrite <- IH. done.
Qed.

Lemma encodings_of_elem e image_paths :
  e ∈ encodings_of process_single_image image_paths <->
  exists p seconds,
    p ∈ image_paths /\ process_single_image p = Returns seconds (Some e).
Proof.
  unfold encodings_of. rewrite list_elem_of_omap. split.
  - intros (p & Hp & Hres). unfold future_result in Hres. simpl in Hres.
    destruct (process_single_image p) as [seconds o| |] eqn:Ht; try discriminate.
    subst o. by exists p, seconds.
  - intros (p & seconds & Hp & Ht). exists p. split; [done|].
    unfold future_result. simpl. by rewrite Ht.
Qed.

Lemma encodings_of_produces image_paths :
  encodings_of process_single_image image_paths <> [] <->
  exists p, p ∈ image_paths /\ produces (process_single_image p).
Proof.
  split.
  - intros Hne.
    destruct (encodings_of process_single_image image_paths) as [|e rest] eqn:Hes;
      [done|].
    assert (He : e ∈ encodings_of process_single_image image_paths)
      by (rewrite Hes; apply elem_of_cons; by left).
    apply encodings_of_elem in He as (p & seconds & Hp & Ht).
    exists p. split; [done|]. by exists seconds, e.
  - intros (p & Hp & seconds & e & Ht) Hnil.
    assert (He : e ∈ encodings_of process_single_image image_paths)
      by (apply encodings_of_elem; eauto).
    rewrite Hnil in He. by apply elem_of_nil in He.
Qed.

(** When every task completes, [register_student] returns: failure with
    the gallery untouched when no embedding came back, success after
    [add_student] and [save_precomputed_encoding] otherwise. *)
Lemma register_student_returns (s : system Enc) (w : world Enc)
  (student_id student_name : string) (image_paths : list string) :
  (forall p, p ∈ image_paths -> finishes (process_single_image p)) ->
  exists all_encodings,
    all_encodings ≡ₚ encodings_of process_single_image image_paths /\
    register_student process_single_image s w student_id student_name image_paths =
      Some (match all_encodings with
            | [] => (false, s, submit_all w image_paths)
            | _ =>
                (true,
                 add_student s student_id
                   (new_student_data student_name all_encodings (clock w)),
                 save_precomputed_encoding (submit_all w image_paths) student_id
                   (new_student_data student_name all_encodings (clock w)))
            end).
Proof.
  intros Hfin.
  assert (Hall : Forall (fun f => finishes (snd f))
                   (futures_of process_single_image image_paths)).
  { apply Forall_forall. intros [p t] Hin.
    apply list_elem_of_fmap in Hin as (q & [= -> ->] & Hq). by apply Hfin. }
  destruct (as_completed_from_finishes _ [] Hall) as (completed & Hc & Hperm).
  simpl in Hperm.
  exists (omap future_result completed). split.
  - by rewrite Hperm, omap_futures_of.
  - unfold register_student, as_completed.
    fold (futures_of process_single_image image_paths).
    rewrite Hc. by destruct (omap future_result completed).
Qed.

Lemma register_student_hangs (s : system Enc) (w : world Enc)
  (student_id student_name : string) (image_paths : list string) p :
  p ∈ image_paths -> process_single_image p = Hangs ->
  register_student process_single_image s w student_id student_name image_paths = None.
Proof.
  intros Hp Hhang. unfold register_student, as_completed.
  rewrite as_completed_from_hangs; [done|].
  apply Exists_exists. exists (p, process_single_image p). split; [|done].
  apply list_elem_of_fmap. by exists p.
Qed.


(** *** The batch *)

Lemma encoding_exists_artifact (w : world Enc) student_id :
  encoding_exists w student_id = true <-> is_Some (artifact_of w student_id).
Proof.
  unfold encoding_exists, artifact_of. destruct (precomputed_encodings w).
  - apply bool_decide_eq_true.
  - split; [done|]. by intros [? ?].
Qed.

Lemma artifact_of_save_ne (w : world Enc) student_id d other :
  other <> student_id ->
  artifact_of (save_precomputed_encoding w student_id d) other = artifact_of w other.
Proof.
  intros Hne. unfold artifact_of, save_precomputed_encoding.
  destruct (json_write w student_id); simpl; [| | |done];
    rewrite ?lookup_insert_ne by done;
    (destruct (precomputed_encodings w); [done|apply lookup_empty]).
Qed.

Lemma artifact_of_save_student_database (s : system Enc) (w : world Enc) student_id :
  artifact_of (save_student_database s w) student_id = artifact_of w student_id.
Proof. unfold save_student_database. by destruct (pickle_write w). Qed.

Lemma submitted_save_student_database (s : system Enc) (w : world Enc) :
  submitted (save_student_database s w) = submitted w.
Proof. unfold save_student_database. by destruct (pickle_write w). Qed.

Lemma encoding_exists_save_student_database (s : system Enc) (w : world Enc)
  student_id :
  encoding_exists (save_student_database s w) student_id
  = encoding_exists w student_id.
Proof. unfold save_student_database. by destruct (pickle_write w). Qed.

Lemma submitted_save (w : world Enc) student_id d :
  submitted (save_precomputed_encoding w student_id d) = submitted w.
Proof. unfold save_precomputed_encoding. by destruct (json_write w student_id). Qed.

Lemma student_photos_save (w : world Enc) student_id d :
  student_photos (save_precomputed_encoding w student_id d) = student_photos w.
Proof. unfold save_precomputed_encoding. by destruct (json_write w student_id). Qed.

Lemma json_write_save (w : world Enc) student_id d :
  json_write (save_precomputed_encoding w student_id d) = json_write w.
Proof. unfold save_precomputed_encoding. by destruct (json_write w student_id). Qed.

Lemma clock_save (w : world Enc) student_id d :
  clock (save_precomputed_encoding w student_id d) = clock w.
Proof. unfold save_precomputed_encoding. by destruct (json_write w student_id). Qed.

(** One student of the processing loop: the call returns, the outcome map
    gets the student's entry, successful exactly when an embedding was
    produced, and only this student's artifact can change. *)
Lemma process_folder_returns (s : system Enc) (w : world Enc) (r : results)
  (folder : string) (images : list string) :
  (forall p, p ∈ images -> finishes (process_single_image p)) ->
  exists s' w' d,
    process_folder process_single_image s w r (folder, images)
      = Some (s', w',
              {| total_students := total_students r;
                 successful := (if detail_success d then S (successful r)
                                else successful r);
                 failed := (if detail_success d then failed r else S (failed r));
                 details := <[folder := d]> (details r) |}) /\
    processed_detail process_single_image (folder, images) d /\
    submitted w' = submitted w ++ images /\
    (forall other, other <> student_id_of folder ->
       artifact_of w' other = artifact_of w other).
Proof.
  intros Hfin. unfold process_folder, processed_detail. cbn [fst snd].
  destruct images as [|image rest] eqn:Himages.
  - exists s, w, (Failed "No images found" 0). split; [done|]. split; [|split].
    + simpl. split; [|split; [done|by left]].
      split; [done|]. intros (p & Hp & _). by apply elem_of_nil in Hp.
    + by rewrite app_nil_r.
    + done.
  - rewrite <- Himages in *. clear Himages.
    destruct (register_student_returns s w (student_id_of folder)
                (student_name_of folder) images Hfin) as (all & Hperm & ->).
    assert (Hiff : all <> [] <->
                   exists p, p ∈ images /\ produces (process_single_image p)).
    { rewrite <- encodings_of_produces. split; intros Hne Hnil.
      - rewrite Hnil in Hperm. by apply Permutation_nil_r in Hperm.
      - rewrite Hnil in Hperm. by apply Permutation_nil_l in Hperm. }
    destruct all as [|e all'].
    + exists s, (submit_all w images), (Failed "Registration failed" (length images)).
      split; [by destruct images|]. split; [|split]; [|done|done].
      simpl. split; [|split; [done|by right]].
      split; [done|]. intros Hex. by apply Hiff in Hex.
    + eexists _, _, (Registered _ _ _ _). split; [by destruct images|].
      split; [|split].
      * simpl. split; [|split; [|done]].
        -- split; [|done]. intros _. by apply Hiff.
        -- intros _. rewrite lookup_insert_eq.
           cbn [from_option sd_encodings new_student_data]. f_equal.
           by apply Permutation_length.
      * by rewrite submitted_save.
      * intros other Hne. by rewrite artifact_of_save_ne.
Qed.

Lemma process_folders_returns (folders : list (string * list string)) :
  forall (s : system Enc) (w : world Enc) (r : results),
  tasks_finish process_single_image folders ->
  exists s' w' r',
    process_folders process_single_image s w r folders = Some (s', w', r') /\
    (NoDup folders.*1 ->
     forall folder, folder ∈ folders ->
       exists d, details r' !! fst folder = Some d /\
                 processed_detail process_single_image folder d) /\
    (forall k, k ∉ folders.*1 -> details r' !! k = details r !! k) /\
    submitted w' = submitted w ++ concat folders.*2 /\
    (forall other, other ∉ student_id_of <$> folders.*1 ->
       artifact_of w' other = artifact_of w other) /\
    successful r <= successful r'.
Proof.
  induction folders as [|[folder images] rest IH]; intros s w r Hfin.
  - exists s, w, r. simpl. rewrite app_nil_r.
    split; [done|]. split; [|done].
    intros _ folder Hin. by apply elem_of_nil in Hin.
  - destruct (process_folder_returns s w r folder images)
      as (s1 & w1 & d & Hstep & Hd & Hsub & Hart).
    { intros p Hp. apply (Hfin (folder, images)); [apply elem_of_cons; by left|done]. }
    destruct (IH s1 w1
                {| total_students := total_students r;
                   successful := (if detail_success d then S (successful r)
                                  else successful r);
                   failed := (if detail_success d then failed r else S (failed r));
                   details := <[folder := d]> (details r) |})
      as (s' & w' & r' & Hrest & Hdet & Hframe & Hsub' & Hart' & Hcount).
    { intros f p Hf Hp. apply (Hfin f p); [apply elem_of_cons; by right|done]. }
    exists s', w', r'. cbn [process_folders]. rewrite Hstep.
    split; [done|]. split; [|split; [|split; [|split]]].
    + intros Hnodup f Hf. cbn in Hnodup. apply NoDup_cons in Hnodup as [Hfresh Hnodup].
      apply elem_of_cons in Hf as [->|Hf]; [|by apply Hdet].
      exists d. split; [|done]. simpl. rewrite Hframe by done. simpl.
      apply lookup_insert_eq.
    + intros k Hk. cbn in Hk. apply not_elem_of_cons in Hk as [Hne Hk].
      rewrite Hframe by done. simpl. by rewrite lookup_insert_ne.
    + rewrite Hsub', Hsub. cbn. by rewrite app_assoc.
    + intros other Hother. cbn in Hother.
      apply not_elem_of_cons in Hother as [Hne Hother].
      rewrite Hart' by done. by apply Hart.
    + simpl in Hcount. destruct (detail_success d); lia.
Qed.

(** The loop that sets the persisted students aside. *)
Lemma select_missing_fold (w : world Enc) (folders : list (string * list string)) :
  forall (r : results) (acc : list (string * list string)),
  exists r',
    fold_left (select_missing w) folders (r, acc)
      = (r', acc ++ filter (missing w) folders) /\
    (forall folder, folder ∈ folders -> ~ missing w folder ->
       details r' !! fst folder
         = Some (FromPrecomputed (student_id_of (fst folder))
                   (student_name_of (fst folder))) /\
       successful r < successful r') /\
    (forall k,
       (forall folder, folder ∈ folders -> ~ missing w folder -> fst folder <> k) ->
       details r' !! k = details r !! k) /\
    successful r <= successful r'.
Proof.
  induction folders as [|f rest IH]; intros r acc.
  - exists r. simpl. rewrite app_nil_r. split; [done|]. split; [|done].
    intros folder Hin. by apply elem_of_nil in Hin.
  - cbn [fold_left]. unfold select_missing at 2.
    destruct (encoding_exists w (student_id_of (fst f))) eqn:Hex; cbn [fst snd].
    + destruct (IH (add_success r (fst f)
                      (FromPrecomputed (student_id_of (fst f)) (student_name_of (fst f))))
                  acc) as (r' & Hfold & Hdet & Hframe & Hcount).
      exists r'. rewrite Hfold.
      rewrite filter_cons_False by (unfold missing; congruence).
      split; [done|]. simpl in Hcount. split; [|split; [|lia]].
      * intros folder Hin Hpresent.
        destruct (decide (Exists (fun g => ~ missing w g /\ fst g = fst folder) rest))
          as [Hsome|Hnone]; rewrite Exists_exists in *.
        -- destruct Hsome as (g & Hg & Hgp & Hgf). rewrite <- Hgf.
           destruct (Hdet g Hg Hgp) as [? ?]. split; [done|lia].
        -- split; [|lia]. rewrite Hframe.
           ++ apply elem_of_cons in Hin as [->|Hin]; [apply lookup_insert_eq|].
              exfalso. apply Hnone. by exists folder.
           ++ intros g Hg Hgp Hgf. apply Hnone. by exists g.
      * intros k Hk. rewrite Hframe.
        -- simpl. apply lookup_insert_ne. apply (Hk f); [apply elem_of_cons; by left|].
           unfold missing. congruence.
        -- intros g Hg. apply Hk. apply elem_of_cons. by right.
    + destruct (IH r (acc ++ [f])) as (r' & Hfold & Hdet & Hframe & Hcount).
      exists r'. rewrite Hfold. rewrite filter_cons_True by done.
      split; [by rewrite <- app_assoc|]. split; [|split; [|done]].
      * intros folder Hin Hpresent. apply Hdet; [|done].
        apply elem_of_cons in Hin as [->|Hin]; [|done]. by destruct Hpresent.
      * intros k Hk. apply Hframe. intros g Hg. apply Hk. apply elem_of_cons. by right.
Qed.


(** The loop taken when every folder could have its encoding already. *)
Lemma use_existing_fold (w : world Enc) (folders : list (string * list string)) :
  forall (r : results),
    (forall folder, folder ∈ folders -> ~ missing w folder ->
       details (fold_left (use_existing w) folders r) !! fst folder
         = Some (FromPrecomputed (student_id_of (fst folder))
                   (student_name_of (fst folder))) /\
       successful r < successful (fold_left (use_existing w) folders r)) /\
    (forall k, k ∉ folders.*1 ->
       details (fold_left (use_existing w) folders r) !! k = details r !! k) /\
    successful r <= successful (fold_left (use_existing w) folders r).
Proof.
  induction folders as [|f rest IH]; intros r.
  - simpl. split; [|done]. intros folder Hin. by apply elem_of_nil in Hin.
  - cbn [fold_left].
    destruct (IH (use_existing w r f)) as (Hdet & Hframe & Hcount).
    assert (Hstep : successful r <= successful (use_existing w r f)).
    { unfold use_existing. destruct (encoding_exists _ _); simpl; lia. }
    split; [|split; [|lia]].
    + intros folder Hin Hpresent.
      destruct (decide (fst folder ∈ rest.*1)) as [Hlater|Hlast].
      * apply list_elem_of_fmap in Hlater as (g & Hname & Hg).
        destruct (Hdet g Hg) as [Hdg Hlt].
        { unfold missing in *. by rewrite <- Hname. }
        rewrite Hname. split; [done|lia].
      * apply elem_of_cons in Hin as [->|Hin].
        -- rewrite Hframe by done. unfold use_existing.
           destruct (encoding_exists w (student_id_of (fst f))) eqn:Hex;
             [|by destruct Hpresent].
           simpl. split; [apply lookup_insert_eq|].
           revert Hcount. unfold use_existing. rewrite Hex. simpl. lia.
        -- destruct Hlast. apply list_elem_of_fmap. by exists folder.
    + intros k Hk. cbn in Hk. apply not_elem_of_cons in Hk as [Hne Hk].
      rewrite Hframe by done. unfold use_existing.
      destruct (encoding_exists _ _); simpl; by rewrite lookup_insert_ne.
Qed.

(** With distinct folder names, the loop that uses the existing encodings
    gives every folder its entry: from the artifact when there is one, a
    failure otherwise. *)
Lemma use_existing_details (w : world Enc) (folders : list (string * list string)) :
  forall (r : results),
    NoDup folders.*1 ->
    forall folder, folder ∈ folders ->
      details (fold_left (use_existing w) folders r) !! fst folder
      = Some (if encoding_exists w (student_id_of (fst folder))
              then FromPrecomputed (student_id_of (fst folder))
                     (student_name_of (fst folder))
              else Failed "No existing encoding found" 0).
Proof.
  induction folders as [|f rest IH]; intros r Hnodup folder Hin.
  - by apply elem_of_nil in Hin.
  - change (NoDup (fst f :: rest.*1)) in Hnodup.
    apply NoDup_cons in Hnodup as [Hfresh Hnodup].
    cbn [fold_left]. apply elem_of_cons in Hin as [->|Hin]; [|by apply IH].
    destruct (use_existing_fold w rest (use_existing w r f)) as (_ & Hframe & _).
    rewrite Hframe by done. unfold use_existing.
    destruct (encoding_exists w (student_id_of (fst f))); simpl;
      by rewrite lookup_insert_eq.
Qed.



(** C10: when none of a student's images yields an embedding,
    [register_student] returns [False] with the system as it was (the
    per-student map and both lists) and without writing an artifact. *)
Theorem register_student_no_encodings (s : system Enc) (w : world Enc)
  (student_id student_name : string) (image_paths : list string) :
  (forall p, p ∈ image_paths ->
     exists seconds, process_single_image p = Returns seconds None \/
                     process_single_image p = Raises seconds) ->
  exists w',
    register_student process_single_image s w student_id student_name image_paths
      = Some (false, s, w') /\
    precomputed_encodings w' = precomputed_encodings w.
Proof.
  intros Hnone.
  destruct (register_student_returns s w student_id student_name image_paths)
    as (all & Hperm & ->).
  { intros p Hp. destruct (Hnone p Hp) as (seconds & [-> | ->]); by exists seconds. }
  assert (Hnil : encodings_of process_single_image image_paths = []).
  { destruct (encodings_of process_single_image image_paths) as [|e rest] eqn:Hes;
      [done|].
    assert (He : e ∈ encodings_of process_single_image image_paths)
      by (rewrite Hes; apply elem_of_cons; by left).
    apply encodings_of_elem in He as (p & seconds & Hp & Ht).
    destruct (Hnone p Hp) as (seconds' & [Hr | Hr]); congruence. }
  rewrite Hnil in Hperm. apply Permutation_nil_r in Hperm as ->.
  by exists (submit_all w image_paths).
Qed.

(** A student's registration succeeds exactly when an image yielded an
    embedding. *)
Lemma register_student_success_iff (s : system Enc) (w : world Enc)
  (student_id student_name : string) (image_paths : list string) :
  (forall p, p ∈ image_paths -> finishes (process_single_image p)) ->
  exists success s' w',
    register_student process_single_image s w student_id student_name image_paths
      = Some (success, s', w') /\
    (success = true <->
       exists p, p ∈ image_paths /\ produces (process_single_image p)).
Proof.
  intros Hfin.
  destruct (register_student_returns s w student_id student_name image_paths Hfin)
    as (all & Hperm & ->).
  pose proof (encodings_of_produces image_paths) as Hiff.
  destruct all as [|e rest].
  - eexists _, _, _. split; [done|]. split; [done|].
    intros Hex. apply Hiff in Hex. by apply Permutation_nil_l in Hperm.
  - eexists _, _, _. split; [done|]. split; [|done].
    intros _. apply Hiff. intros Hnil. rewrite Hnil in Hperm.
    by apply Permutation_nil_r in Hperm.
Qed.

End Facts.

(** *** The theorems at the sample inputs *)

Import Samples.




Lemma register_student_no_encodings_witness :
  exists w',
    register_student sample_task default_system fresh_world "BOB" "Bob" ["bob/1.jpg"]
      = Some (false, default_system, w') /\
    precomputed_encodings w' = precomputed_encodings fresh_world.
Proof.
  apply (register_student_no_encodings sample_task default_system fresh_world
           "BOB" "Bob" ["bob/1.jpg"]).
  intros p Hp. apply list_elem_of_singleton in Hp as ->.
  exists 2. left. reflexivity.
Defined.

(** *** The unused timeout *)

(** [encoding_timeout] is read nowhere: changing it changes nothing. *)
Lemma register_student_ignores_timeout {Enc : Type}
  (process_single_image : string -> task Enc) (t : nat) (s : system Enc)
  (w : world Enc) (student_id student_name : string) (image_paths : list string) :
  register_student process_single_image (with_encoding_timeout t s) w
    student_id student_name image_paths
  = (fun out => (fst (fst out), with_encoding_timeout t (snd (fst out)), snd out)) <$>
    register_student process_single_image s w student_id student_name image_paths.
Proof.
  unfold register_student.
  destruct (as_completed _) as [completed|]; [|done].
  by destruct (omap future_result completed).
Qed.

(** C5, at a failing input: the image ann/2.jpg takes 100 seconds, the
    configured [encoding_timeout] is 8, and the image is not treated as a
    failure: its embedding is registered.  The task of cy/1.jpg never
    completes: [register_student] never returns, and neither does the batch,
    which does not reach the next student. *)
Theorem slow_encoding_is_not_timed_out :
  encoding_timeout (@default_system Q) = 8 /\
  sample_task "ann/2.jpg" = Returns 100 (Some 0.1%Q) /\
  (exists s' w',
     register_student sample_task default_system fresh_world "ANN" "Ann" ["ann/2.jpg"]
       = Some (true, s', w') /\
     known_face_encodings s' = [0.1%Q]) /\
  sample_task "cy/1.jpg" = Hangs /\
  register_student sample_task default_system stalled_world "CY" "Cy" ["cy/1.jpg"]
    = None /\
  batch_register_from_folders sample_task default_system stalled_world = None.
Proof.
  split; [reflexivity|]. split; [reflexivity|]. split.
  - eexists _, _. split; reflexivity.
  - split; [reflexivity|]. split; reflexivity.
Qed.

End RegistrationFacts.


(** ** Embedding gallery *)

Module GalleryFacts.

Import Gallery Samples.

Section Facts.

Context {Enc : Type}.

Variable process_single_image : string -> task Enc.

Lemma clear_consistent (s : system Enc) : consistent (clear s).
Proof.
  split; [done|]. unfold flattened, per_student. simpl.
  by rewrite map_to_list_empty.
Qed.

(** Adding a student who is not in the map keeps the two structures in
    step. *)
Lemma add_student_consistent (s : system Enc) student_id (d : student_data Enc) :
  consistent s ->
  student_database s !! student_id = None ->
  consistent (add_student s student_id d).
Proof.
  intros [Hlen Hperm] Hfresh. split.
  - simpl. rewrite !length_app, length_replicate. lia.
  - unfold flattened, per_student in *. simpl.
    rewrite map_to_list_insert by done. rewrite bind_cons. simpl.
    rewrite zip_with_app by done.
    rewrite zip_with_replicate_l by done.
    rewrite Hperm. apply Permutation_app_comm.
Qed.

Lemma load_file_consistent now (acc : nat * system Enc) f :
  consistent (snd acc) -> consistent (snd (load_file now acc f)).
Proof.
  destruct acc as [loaded_count s], f as [student_id content]. simpl.
  intros Hc. destruct (is_generic student_id); [done|].
  destruct content as [|a]; [done|].
  destruct (student_database s !! student_id) eqn:Hdb; [done|].
  destruct (a_encodings a); [|done]. destruct (a_name a); [|done].
  simpl. by apply add_student_consistent.
Qed.

Lemma load_files_consistent now files (acc : nat * system Enc) :
  consistent (snd acc) -> consistent (snd (fold_left (load_file now) files acc)).
Proof.
  revert acc. induction files as [|f rest IH]; intros acc Hc; [done|].
  simpl. apply IH. by apply load_file_consistent.
Qed.

(** Loading the persisted artifacts keeps the gallery consistent. *)
Lemma load_precomputed_encodings_consistent (s : system Enc) (w : world Enc) :
  consistent s -> consistent (snd (load_precomputed_encodings s w)).
Proof.
  intros Hc. unfold load_precomputed_encodings.
  destruct (precomputed_encodings w) as [dir|]; [|done].
  destruct (map_to_list dir) as [|f rest] eqn:Hfiles; [done|].
  pose proof (load_files_consistent (clock w) (f :: rest) (0, s) Hc) as Hfold.
  by destruct (fold_left _ _ _).
Qed.

(** The gallery [load_student_database] builds from the artifacts alone is
    consistent. *)
Lemma load_student_database_consistent (s : system Enc) (w : world Enc) s1 :
  load_precomputed_encodings (clear s) w = (true, s1) -> consistent s1.
Proof.
  intros Hload.
  pose proof (load_precomputed_encodings_consistent (clear s) w (clear_consistent s))
    as Hc.
  by rewrite Hload in Hc.
Qed.

(** Registering a student who is not in the map keeps it consistent. *)
Lemma register_student_fresh_consistent (s : system Enc) (w : world Enc)
  student_id student_name image_paths success s' w' :
  consistent s ->
  student_database s !! student_id = None ->
  register_student process_single_image s w student_id student_name image_paths
    = Some (success, s', w') ->
  consistent s'.
Proof.
  intros Hc Hfresh. unfold register_student.
  destruct (as_completed _) as [completed|]; [|done].
  destruct (omap future_result completed) as [|e rest].
  - by intros [= _ <- _].
  - intros [= _ <- _]. by apply add_student_consistent.
Qed.

End Facts.

(** C3, at a failing input: Ann is registered from ann/1.jpg and then
    registered again from ann/2.jpg.  The per-student map holds the new
    embedding only; the flattened lists still hold the old one next to the
    new one, so the two structures have diverged. *)
Theorem reregistration_diverges :
  exists s1 w1 s2 w2,
    register_student sample_task default_system fresh_world "ANN" "Ann" ["ann/1.jpg"]
      = Some (true, s1, w1) /\
    consistent s1 /\
    register_student sample_task s1 w1 "ANN" "Ann" ["ann/2.jpg"]
      = Some (true, s2, w2) /\
    sd_encodings <$> student_database s2 !! "ANN" = Some [0.1%Q] /\
    known_face_encodings s2 = [0%Q; 0.1%Q] /\
    known_face_names s2 = ["ANN"; "ANN"] /\
    ~ consistent s2.
Proof.
  eexists _, _, _, _. split; [reflexivity|]. split.
  - apply add_student_consistent; [|reflexivity].
    split; [done|]. unfold flattened, per_student. simpl.
    by rewrite map_to_list_empty.
  - split; [reflexivity|]. split; [by vm_compute|].
    split; [reflexivity|]. split; [reflexivity|].
    intros [_ Hperm]. apply Permutation_length in Hperm.
    vm_compute in Hperm. discriminate.
Qed.

End GalleryFacts.


(** ** Matcher *)

Module MatcherFacts.

Import Detection Gallery Matcher Samples.

Lemma Qlt_bool_iff (a b : Q) : Qlt_bool a b = true <-> (a < b)%Q.
Proof.
  unfold Qlt_bool. rewrite negb_true_iff. split.
  - intros Hle. apply Qnot_le_lt. intros Hba.
    apply Qle_bool_iff in Hba. congruence.
  - intros Hlt. destruct (Qle_bool b a) eqn:Hle; [|done].
    apply Qle_bool_iff in Hle. Lqa.lra.
Qed.

Lemma Qlt_bool_false_iff (a b : Q) : Qlt_bool a b = false <-> (b <= a)%Q.
Proof.
  unfold Qlt_bool. rewrite negb_false_iff. apply Qle_bool_iff.
Qed.

(** [argmin] points at a least element. *)
Lemma argmin_from_least (l : list Q) :
  forall (best_index : nat) (best : Q) (pre : list Q),
    pre !! best_index = Some best ->
    (forall x, x ∈ pre -> (best <= x)%Q) ->
    exists d, (pre ++ l) !! argmin_from best_index best (length pre) l = Some d /\
              forall x, x ∈ pre ++ l -> (d <= x)%Q.
Proof.
  induction l as [|d rest IH]; intros best_index best pre Hbest Hleast.
  - simpl. rewrite app_nil_r. eauto.
  - simpl. replace (pre ++ d :: rest) with ((pre ++ [d]) ++ rest)
      by (by rewrite <- app_assoc).
    replace (S (length pre)) with (length (pre ++ [d]))
      by (rewrite length_app; simpl; lia).
    destruct (Qlt_bool d best) eqn:Hlt.
    + apply Qlt_bool_iff in Hlt. apply IH.
      * by rewrite list_lookup_middle.
      * intros x Hx. apply elem_of_app in Hx as [Hx|Hx].
        -- specialize (Hleast x Hx). Lqa.lra.
        -- apply list_elem_of_singleton in Hx as ->. Lqa.lra.
    + apply Qlt_bool_false_iff in Hlt. apply IH.
      * rewrite lookup_app_l; [done|]. by eapply lookup_lt_Some.
      * intros x Hx. apply elem_of_app in Hx as [Hx|Hx]; [by apply Hleast|].
        by apply list_elem_of_singleton in Hx as ->.
Qed.

Lemma argmin_least (l : list Q) :
  l <> [] ->
  exists d, l !! argmin l = Some d /\ forall x, x ∈ l -> (d <= x)%Q.
Proof.
  destruct l as [|d rest]; [done|]. intros _. unfold argmin.
  apply (argmin_from_least rest 0 d [d]); [done|].
  intros x Hx. apply list_elem_of_singleton in Hx as ->. Lqa.lra.
Qed.

(** [min] returns a least element of the sequence. *)
Lemma py_min_least (l : list Q) m :
  py_min l = Some m -> m ∈ l /\ forall x, x ∈ l -> (m <= x)%Q.
Proof.
  destruct l as [|d rest]; [done|]. simpl. intros [= <-].
  assert (Hfold : forall (l : list Q) (m0 : Q),
             let m := fold_left (fun m x => if Qlt_bool x m then x else m) l m0 in
             (m = m0 \/ m ∈ l) /\ (m <= m0)%Q /\ forall x, x ∈ l -> (m <= x)%Q).
  { clear. induction l as [|y l IH]; intros m0; simpl.
    - split; [by left|]. split; [Lqa.lra|]. intros x Hx. by apply elem_of_nil in Hx.
    - destruct (Qlt_bool y m0) eqn:Hlt.
      + apply Qlt_bool_iff in Hlt. destruct (IH y) as (Hin & Hle & Hleast).
        split; [right; destruct Hin as [->|Hin]; [by left|by right]|].
        split; [Lqa.lra|]. intros x Hx. apply elem_of_cons in Hx as [->|Hx]; eauto.
      + apply Qlt_bool_false_iff in Hlt. destruct (IH m0) as (Hin & Hle & Hleast).
        split; [destruct Hin as [->|Hin]; [by left|right; by right]|].
        split; [done|]. intros x Hx.
        apply elem_of_cons in Hx as [->|Hx]; [Lqa.lra|eauto]. }
  destruct (Hfold rest d) as (Hin & Hle & Hleast).
  split.
  - destruct Hin as [->|Hin]; [by left|by right].
  - intros x Hx. apply elem_of_cons in Hx as [->|Hx]; eauto.
Qed.

Section Facts.

Context {Enc : Type}.

Variable dist : Enc -> Enc -> Q.

Lemma compare_faces_lookup known (face : Enc) tolerance i :
  compare_faces dist known face tolerance !! i
  = (fun d => Qle_bool d tolerance) <$> face_distance dist known face !! i.
Proof. unfold compare_faces. apply list_lookup_fmap. Qed.

(** *** The Flask path *)

(** The face is within the tolerance, bound included: the branch is then
    decided by the owner of the nearest embedding. *)
Lemma branch_of_within (s : system Enc) (ids : gset string) (face : Enc) d :
  face_distance dist (known_face_encodings s) face
    !! argmin (face_distance dist (known_face_encodings s) face) = Some d ->
  (d <= face_recognition_tolerance s)%Q ->
  branch_of dist s ids face =
    match known_face_names s
            !! argmin (face_distance dist (known_face_encodings s) face) with
    | None => NameIndexError
    | Some student_id =>
        if bool_decide (student_id ∈ ids) then AlreadyRecognized student_id
        else if Qlt_bool 0.35 (1 - d) then Recognize student_id (1 - d)
             else LowConfidence student_id (1 - d)
    end.
Proof.
  intros Hd Hle. apply Qle_bool_iff in Hle.
  assert (Hm : compare_faces dist (known_face_encodings s) face
                 (face_recognition_tolerance s)
                 !! argmin (face_distance dist (known_face_encodings s) face)
               = Some true).
  { rewrite compare_faces_lookup, Hd. simpl. by rewrite Hle. }
  unfold branch_of.
  assert (Hex : existsb (fun m => m)
                  (compare_faces dist (known_face_encodings s) face
                     (face_recognition_tolerance s)) = true).
  { apply existsb_exists. exists true. split; [|done].
    apply list_elem_of_In. eapply list_elem_of_lookup_2. exact Hm. }
  rewrite Hex, Hm, Hd. done.
Qed.

(** Every known embedding is farther than the tolerance: no match. *)
Lemma branch_of_beyond (s : system Enc) (ids : gset string) (face : Enc) :
  (forall d, d ∈ face_distance dist (known_face_encodings s) face ->
     (face_recognition_tolerance s < d)%Q) ->
  branch_of dist s ids face = NoMatch.
Proof.
  intros Hfar. unfold branch_of.
  destruct (existsb _ _) eqn:Hex; [|done].
  apply existsb_exists in Hex as (m & Hin & ->).
  apply list_elem_of_In in Hin. unfold compare_faces in Hin.
  apply list_elem_of_fmap in Hin as (d & Hle & Hd).
  symmetry in Hle. apply Qle_bool_iff in Hle. specialize (Hfar d Hd). Lqa.lra.
Qed.

(** With the default tolerance an accepted face has confidence at least
    one half, above the floor. *)
Lemma branch_of_default_tolerance_aux (s : system Enc) (ids : gset string) (face : Enc) :
  face_recognition_tolerance s = face_recognition_tolerance (@default_system Enc) ->
  (forall student_id c, branch_of dist s ids face <> LowConfidence student_id c) /\
  (forall student_id c,
     branch_of dist s ids face = Recognize student_id c -> (0.5 <= c)%Q).
Proof.
  intros Htol. unfold branch_of. rewrite Htol. simpl.
  destruct (existsb _ _); [|done].
  rewrite compare_faces_lookup.
  destruct (face_distance dist (known_face_encodings s) face !! _) as [d|]; [|done].
  simpl. destruct (Qle_bool d 0.5) eqn:Hle; [|done].
  apply Qle_bool_iff in Hle.
  destruct (known_face_names s !! _) as [student_id|]; [|done].
  destruct (bool_decide _); [done|].
  destruct (Qlt_bool 0.35 (1 - d)) eqn:Hfloor.
  - split; [done|]. intros ? ? [= _ <-]. Lqa.lra.
  - apply Qlt_bool_false_iff in Hfloor. Lqa.lra.
Qed.

Lemma branch_of_Recognize_fresh (s : system Enc) ids face student_id c :
  branch_of dist s ids face = Recognize student_id c -> student_id ∉ ids.
Proof.
  unfold branch_of. destruct (existsb _ _); [|done].
  destruct (default false _); [|done].
  destruct (known_face_names s !! _) as [sid|]; [|done].
  destruct (bool_decide (sid ∈ ids)) eqn:Hin; [done|].
  apply bool_decide_eq_false in Hin.
  destruct (Qlt_bool _ _); [|done]. by intros [= <- _].
Qed.

Lemma loop_body_tracked (s : system Enc) st face st' :
  loop_body dist s st face = Some st' -> tracked st -> tracked st'.
Proof.
  unfold loop_body. intros Hbody [Hnodup Hids].
  destruct (branch_of dist s (recognized_student_ids st) (snd face)) eqn:Hb;
    try (injection Hbody as <-; by split); [|done].
  injection Hbody as <-. apply branch_of_Recognize_fresh in Hb.
  split; simpl.
  - rewrite fmap_app. simpl. apply NoDup_app. split; [done|]. split.
    + intros x Hx Hx'. apply list_elem_of_singleton in Hx' as ->.
      by apply Hb, Hids.
    + apply NoDup_singleton.
  - intros sid. rewrite fmap_app, elem_of_app, elem_of_union, elem_of_singleton.
    simpl. rewrite list_elem_of_singleton, Hids. tauto.
Qed.

Lemma loop_tracked (s : system Enc) faces :
  forall st st', loop dist s st faces = Some st' -> tracked st -> tracked st'.
Proof.
  induction faces as [|face rest IH]; intros st st' Hloop Htracked.
  - by injection Hloop as <-.
  - simpl in Hloop. destruct (loop_body dist s st face) as [st1|] eqn:Hbody; [|done].
    eapply IH; [done|]. by eapply loop_body_tracked.
Qed.

(** With names and encodings in step the name lookup never fails, and the
    loop returns. *)
Lemma branch_of_in_range (s : system Enc) (ids : gset string) (face : Enc) :
  length (known_face_names s) = length (known_face_encodings s) ->
  branch_of dist s ids face <> NameIndexError.
Proof.
  intros Hlen. unfold branch_of.
  destruct (existsb _ _); [|done].
  destruct (compare_faces dist (known_face_encodings s) face
              (face_recognition_tolerance s)
              !! argmin (face_distance dist (known_face_encodings s) face))
    as [m|] eqn:Hm; [|done].
  apply lookup_lt_Some in Hm.
  unfold compare_faces, face_distance in Hm. rewrite !length_fmap in Hm.
  destruct m; [|done]. simpl.
  destruct (known_face_names s !! _) as [student_id|] eqn:Hname.
  - destruct (bool_decide _); [done|]. by destruct (Qlt_bool _ _).
  - apply lookup_ge_None in Hname. unfold face_distance in Hname. lia.
Qed.

Lemma loop_returns (s : system Enc) faces :
  length (known_face_names s) = length (known_face_encodings s) ->
  forall st, is_Some (loop dist s st faces).
Proof.
  intros Hlen. induction faces as [|face rest IH]; intros st; [done|].
  simpl. unfold loop_body.
  pose proof (branch_of_in_range s (recognized_student_ids st) (snd face) Hlen).
  destruct (branch_of dist s (recognized_student_ids st) (snd face));
    try apply IH. done.
Qed.

(** *** The simple path *)

(** [best_distance] is below every known distance and below its initial
    value; either nothing beat the initial value, or [best_match] owns an
    embedding at exactly [best_distance]. *)
Lemma best_student_least (students : list (string * list Enc)) (face : Enc) :
  forall best_match0 best_distance0 best_match best_distance,
    best_student dist students face best_match0 best_distance0
      = Some (best_match, best_distance) ->
    (best_distance <= best_distance0)%Q /\
    (forall sid encodings e, (sid, encodings) ∈ students -> e ∈ encodings ->
       (best_distance <= dist e face)%Q) /\
    ((best_match = best_match0 /\ best_distance = best_distance0) \/
     (exists sid encodings e,
        (sid, encodings) ∈ students /\ e ∈ encodings /\
        best_match = Some sid /\ best_distance = dist e face /\
        (best_distance < best_distance0)%Q)).
Proof.
  induction students as [|[sid encodings] rest IH];
    intros best_match0 best_distance0 best_match best_distance Hbest.
  - injection Hbest as <- <-. split; [Lqa.lra|]. split; [|by left].
    intros sid encodings e Hin. by apply elem_of_nil in Hin.
  - simpl in Hbest.
    destruct (py_min (face_distance dist encodings face)) as [m|] eqn:Hmin; [|done].
    apply py_min_least in Hmin as [Hm Hleast].
    apply list_elem_of_fmap in Hm as (e0 & -> & He0).
    assert (Hhere : forall e, e ∈ encodings -> (dist e0 face <= dist e face)%Q).
    { intros e He. apply Hleast. apply list_elem_of_fmap. by exists e. }
    destruct (Qlt_bool (dist e0 face) best_distance0) eqn:Hlt.
    + apply Qlt_bool_iff in Hlt.
      destruct (IH _ _ _ _ Hbest) as (Hle & Hall & Howner).
      split; [Lqa.lra|]. split.
      * intros sid' encodings' e Hin He.
        apply elem_of_cons in Hin as [[= -> ->]|Hin]; [|by eapply Hall].
        specialize (Hhere e He). Lqa.lra.
      * right.
        destruct Howner
          as [[-> ->]|(sid' & encodings' & e & Hin & He & -> & -> & Hlt')].
        -- exists sid, encodings, e0. split; [by apply elem_of_cons; left|]. done.
        -- exists sid', encodings', e. split; [by apply elem_of_cons; right|].
           split; [done|]. split; [done|]. split; [done|]. Lqa.lra.
    + apply Qlt_bool_false_iff in Hlt.
      destruct (IH _ _ _ _ Hbest) as (Hle & Hall & Howner).
      split; [done|]. split.
      * intros sid' encodings' e Hin He.
        apply elem_of_cons in Hin as [[= -> ->]|Hin]; [|by eapply Hall].
        specialize (Hhere e He). Lqa.lra.
      * destruct Howner as [?|(sid' & encodings' & e & Hin & He & -> & -> & Hlt')];
          [by left|right].
        exists sid', encodings', e. split; [by apply elem_of_cons; right|]. done.
Qed.

(** The inner loop returns when every student has an encoding. *)
Lemma best_student_returns (students : list (string * list Enc)) (face : Enc) :
  (forall sid encodings, (sid, encodings) ∈ students -> encodings <> []) ->
  forall best_match0 best_distance0,
    is_Some (best_student dist students face best_match0 best_distance0).
Proof.
  induction students as [|[sid encodings] rest IH]; intros Hne bm bd; [done|].
  simpl. destruct encodings as [|e encodings].
  - by destruct (Hne sid []); [apply elem_of_cons; left|].
  - simpl. destruct (Qlt_bool _ bd); apply IH; intros ? ? Hin;
      eapply Hne; apply elem_of_cons; by right.
Qed.

(** No embedding is nearer than 0.6: Unknown. *)
Lemma match_face_beyond (s : simple_system Enc) (loc : box) (face : Enc) :
  simple_ok s ->
  (forall sid encodings e, (sid, encodings) ∈ student_encodings s -> e ∈ encodings ->
     (0.6 <= dist e face)%Q) ->
  match_face dist s (loc, face) = Some (unknown_result loc).
Proof.
  intros Hok Hfar. unfold match_face. simpl.
  destruct (best_student_returns (student_encodings s) face)
    with (best_match0 := @None string) (best_distance0 := 1%Q)
    as [[bm bd] Hbest].
  { intros sid encodings Hin. by destruct (Hok sid encodings Hin). }
  rewrite Hbest. apply best_student_least in Hbest as (_ & _ & Howner).
  destruct Howner as [[-> ->]|(sid & encodings & e & Hin & He & -> & -> & _)]; [done|].
  simpl. destruct sid as [|c sid]; [done|].
  assert (Hge : Qlt_bool (dist e face) 0.6 = false)
    by (apply Qlt_bool_false_iff; eauto).
  by rewrite Hge.
Qed.

(** Some embedding is nearer than 0.6: the face goes to a student who owns
    a nearest embedding, with confidence one minus that distance. *)
Lemma match_face_within (s : simple_system Enc) (loc : box) (face : Enc)
  sid0 encodings0 e0 :
  simple_ok s ->
  (sid0, encodings0) ∈ student_encodings s -> e0 ∈ encodings0 ->
  (dist e0 face < 0.6)%Q ->
  exists sid encodings e student_name,
    (sid, encodings) ∈ student_encodings s /\ e ∈ encodings /\
    (forall sid' encodings' e', (sid', encodings') ∈ student_encodings s ->
       e' ∈ encodings' -> (dist e face <= dist e' face)%Q) /\
    student_names s !! sid = Some student_name /\
    match_face dist s (loc, face)
      = Some {| student_id := sid; name := student_name;
                confidence := 1 - dist e face; face_location := loc |}.
Proof.
  intros Hok Hin0 He0 Hnear. unfold match_face. simpl.
  destruct (best_student_returns (student_encodings s) face)
    with (best_match0 := @None string) (best_distance0 := 1%Q)
    as [[bm bd] Hbest].
  { intros sid encodings Hin. by destruct (Hok sid encodings Hin). }
  rewrite Hbest. apply best_student_least in Hbest as (_ & Hall & Howner).
  pose proof (Hall sid0 encodings0 e0 Hin0 He0) as Hle.
  destruct Howner as [[-> ->]|(sid & encodings & e & Hin & He & -> & -> & _)];
    [Lqa.lra|].
  destruct (Hok sid encodings Hin) as (_ & Hid & [student_name Hname]).
  exists sid, encodings, e, student_name.
  split; [done|]. split; [done|]. split; [done|]. split; [done|].
  simpl. destruct sid as [|c sid]; [done|].
  assert (Hlt : Qlt_bool (dist e face) 0.6 = true)
    by (apply Qlt_bool_iff; Lqa.lra).
  by rewrite Hlt, Hname.
Qed.

(** C9: in the Flask path under the default tolerance, a face that the
    tolerance check accepts has confidence at least one half, which is above
    the floor of 0.35: the low-confidence branch is never taken. *)
Theorem low_confidence_unreachable (s : system Enc) (ids : gset string) (face : Enc) :
  face_recognition_tolerance s = face_recognition_tolerance (@default_system Enc) ->
  (forall student_id c, branch_of dist s ids face <> LowConfidence student_id c) /\
  (forall student_id c,
     branch_of dist s ids face = Recognize student_id c -> (0.5 <= c)%Q /\ (0.35 < c)%Q).
Proof.
  intros Htol.
  destruct (branch_of_default_tolerance_aux s ids face Htol) as [Hlow Hconf].
  split; [done|]. intros student_id c Hb. specialize (Hconf student_id c Hb).
  split; [done|]. Lqa.lra.
Qed.

(** C2, as the code has it: the Flask path lists every student at most
    once, and a face whose nearest embedding is within the tolerance and
    belongs to a student already recognised in the frame leaves the results
    and the count of unknown faces as they were.  With the two lists of the
    gallery in step, a frame with a face always gets its results. *)
Theorem flask_student_recognized_once (s : system Enc) :
  (forall faces students total_faces recognized_count unknown,
     recognize_faces_in_image dist s faces
       = Recognition students total_faces recognized_count unknown ->
     NoDup (r_student_id <$> students)) /\
  (length (known_face_names s) = length (known_face_encodings s) ->
   forall faces, faces <> [] ->
     exists students unknown,
       recognize_faces_in_image dist s faces
         = Recognition students (length faces) (length students) unknown) /\
  (forall st loc face d student_id,
     face_distance dist (known_face_encodings s) face
       !! argmin (face_distance dist (known_face_encodings s) face) = Some d ->
     (d <= face_recognition_tolerance s)%Q ->
     known_face_names s
       !! argmin (face_distance dist (known_face_encodings s) face)
       = Some student_id ->
     student_id ∈ recognized_student_ids st ->
     loop_body dist s st (loc, face) = Some st).
Proof.
  split; [|split].
  - intros faces students total_faces recognized_count unknown Hrec.
    unfold recognize_faces_in_image in Hrec.
    destruct faces as [|face rest]; [done|].
    destruct (loop dist s initial_state (face :: rest)) as [st|] eqn:Hloop; [|done].
    injection Hrec as <- _ _ _.
    apply (loop_tracked s (face :: rest) initial_state st Hloop).
    split; [apply NoDup_nil_2|]. intros sid. simpl. set_solver.
  - intros Hlen faces Hfaces. unfold recognize_faces_in_image.
    destruct (loop_returns s faces Hlen initial_state) as [st ->].
    destruct faces; [done|]. by eexists _, _.
  - intros st loc face d student_id Hd Hle Hname Hin.
    unfold loop_body. simpl.
    rewrite (branch_of_within s _ face d Hd Hle), Hname.
    by rewrite bool_decide_eq_true_2.
Qed.


End Facts.

Lemma low_confidence_unreachable_witness :
  (forall student_id c,
     branch_of line_dist ann_bob_system ∅ 0.5%Q <> LowConfidence student_id c) /\
  (forall student_id c,
     branch_of line_dist ann_bob_system ∅ 0.5%Q = Recognize student_id c ->
     (0.5 <= c)%Q /\ (0.35 < c)%Q).
Proof.
  apply (low_confidence_unreachable line_dist ann_bob_system ∅ 0.5%Q).
  reflexivity.
Defined.

Lemma simple_ann_bob_ok : simple_ok simple_ann_bob.
Proof.
  intros sid encodings Hin. vm_compute in Hin.
  repeat (apply elem_of_cons in Hin as [[= -> ->]|Hin]);
    try (by apply elem_of_nil in Hin);
    (split; [done|]; split; [done|]; by eexists).
Qed.

Lemma flask_student_recognized_once_witness :
  NoDup (r_student_id <$>
           [{| r_student_id := "ANN"; r_student_name := "Ann";
               r_confidence := 0.9; r_face_location := face_box |}]) /\
  loop_body line_dist ann_bob_system
    {| recognized_students := []; unknown_faces := 0;
       recognized_student_ids := {["ANN"]} |} (other_box, 0.2%Q)
  = Some {| recognized_students := []; unknown_faces := 0;
            recognized_student_ids := {["ANN"]} |}.
Proof.
  destruct (flask_student_recognized_once line_dist ann_bob_system)
    as (Honce & _ & Hskip).
  split.
  - apply (Honce [(face_box, 0.1%Q); (other_box, 0.2%Q)] _ 2 1 0). reflexivity.
  - apply (Hskip _ other_box 0.2%Q 0.2%Q "ANN").
    + reflexivity.
    + vm_compute. discriminate.
    + reflexivity.
    + set_solver.
Defined.


(** C2 as stated fails: in the simple path two faces of one frame are both
    assigned to Ann; in the Flask path the second face is dropped, neither
    listed nor counted as unknown. *)
Lemma same_student_twice_in_one_frame :
  detect_faces_in_image line_dist simple_ann_bob
    [(face_box, 0.1%Q); (other_box, 0.2%Q)]
  = Some [{| student_id := "ANN"; name := "Ann"; confidence := 0.9;
             face_location := face_box |};
          {| student_id := "ANN"; name := "Ann"; confidence := 0.8;
             face_location := other_box |}] /\
  recognize_faces_in_image line_dist ann_bob_system
    [(face_box, 0.1%Q); (other_box, 0.2%Q)]
  = Recognition [{| r_student_id := "ANN"; r_student_name := "Ann";
                    r_confidence := 0.9; r_face_location := face_box |}] 2 1 0.
Proof. split; reflexivity. Qed.


End MatcherFacts.


(** ** Attendance recorder *)

Module RecorderFacts.

Import Recorder Samples.

(** The INSERT of the two recording methods never gets past its third
    parameter, the [datetime.time]. *)
Lemma insert_time_raises (t : table) (student_id : string) (today now : nat)
  (confidence : Q) (image_path : string) :
  insert t (PyStr student_id) (PyDate today) (PyTime now) (PyFloat confidence)
    (PyStr image_path) = None.
Proof. reflexivity. Qed.

(** A call for a student creates the table when it is missing and ends in
    the binding error, whether the student has a name or not. *)
Lemma mark_attendance_raises (student_names : gmap string string) (db : database)
  (today now : nat) (student_id : string) (confidence : Q) (image_path : string) :
  student_id <> "Unknown" ->
  mark_attendance student_names db today now student_id confidence image_path
  = (BindingError, Some (create_table_if_not_exists db)).
Proof.
  intros Hknown. unfold mark_attendance.
  by rewrite bool_decide_eq_false_2, insert_time_raises.
Qed.

Lemma records_create_table (db : database) (student_id : string) (date : nat) :
  records (Some (create_table_if_not_exists db)) student_id date
  = records db student_id date.
Proof. by destruct db. Qed.

(** C1, at a failing input: Ann, who has a name, is marked twice on day 20,
    starting from a database without the table.  The first call already
    ends in the sqlite3 error raised for the [datetime.time] parameter and
    stores nothing, and so does the second: it is an error, not a reported
    duplicate skip, and no record keyed (ANN, 20) exists after a call that
    should have stored one.  [mark_attendance_batch] fails the same way on
    two faces of one frame matched to Ann. *)
Theorem second_mark_attendance_same_day :
  (let first := mark_attendance ann_bob_names None 20 900 "ANN" 0.9 "monday.jpg" in
   let second :=
     mark_attendance ann_bob_names (snd first) 20 930 "ANN" 0.8 "monday2.jpg" in
   fst first = BindingError /\
   records (snd first) "ANN" 20 = [] /\
   fst second = BindingError /\
   records (snd second) "ANN" 20 = []) /\
  (let batch :=
     mark_attendance_batch None 20 900 [("ANN", 0.9%Q); ("ANN", 0.8%Q)] "monday.jpg" in
   fst batch = None /\
   records (snd batch) "ANN" 20 = []).
Proof.
  split.
  - cbn zeta. rewrite !mark_attendance_raises by done. cbn [fst snd].
    rewrite !records_create_table. done.
  - done.
Qed.

End RecorderFacts.

(** * Further properties *)

(** ** Detection merger *)

Module DetectionMore.

Import Detection DetectionOrder DetectionFacts.

Local Open Scope Z_scope.

(** What the loop returns: the faces kept so far, then some of the faces
    still to come, in their order. *)
Lemma dedup_loop_kept faces unique_faces :
  exists kept,
    dedup_loop faces unique_faces = unique_faces ++ kept /\
    kept `sublist_of` faces.
Proof.
  revert unique_faces. induction faces as [|face rest IH]; intros unique_faces.
  - exists []. by rewrite app_nil_r.
  - simpl. destruct (is_duplicate face unique_faces).
    + destruct (IH unique_faces) as (kept & -> & Hsub).
      exists kept. split; [done|]. by apply sublist_cons.
    + destruct (IH (unique_faces ++ [face])) as (kept & -> & Hsub).
      exists (face :: kept). split; [by rewrite <- app_assoc|].
      by apply sublist_skip.
Qed.

(** Every face still to come is kept, or is too close to a kept one. *)
Lemma dedup_loop_covers faces unique_faces face :
  face ∈ faces ->
  face ∈ dedup_loop faces unique_faces \/
  exists kept, kept ∈ dedup_loop faces unique_faces /\ too_close face kept = true.
Proof.
  revert unique_faces. induction faces as [|f rest IH]; intros unique_faces Hin.
  - by apply elem_of_nil in Hin.
  - simpl. apply elem_of_cons in Hin as [->|Hin]; [|by apply IH].
    destruct (is_duplicate f unique_faces) eqn:Hdup.
    + right. unfold is_duplicate in Hdup.
      apply existsb_exists in Hdup as (kept & Hkept & Hclose).
      exists kept. split; [|done].
      destruct (dedup_loop_kept rest unique_faces) as (more & -> & _).
      apply elem_of_app. left. by apply list_elem_of_In.
    + left. destruct (dedup_loop_kept rest (unique_faces ++ [f])) as (more & -> & _).
      apply elem_of_app. left. apply elem_of_app. right. by apply list_elem_of_singleton.
Qed.

(** A list whose faces are already apart goes through the loop whole. *)
Lemma dedup_loop_apart faces unique_faces :
  separated (unique_faces ++ faces) ->
  dedup_loop faces unique_faces = unique_faces ++ faces.
Proof.
  revert unique_faces. induction faces as [|face rest IH]; intros unique_faces Hsep.
  - by rewrite app_nil_r.
  - simpl.
    assert (Hdup : is_duplicate face unique_faces = false).
    { unfold is_duplicate. destruct (existsb _ _) eqn:Hex; [|done].
      apply existsb_exists in Hex as (kept & Hkept & Hclose).
      apply list_elem_of_In, list_elem_of_lookup in Hkept as [i Hi].
      rewrite (Hsep i (length unique_faces) kept face) in Hclose; [done| | |].
      - by eapply lookup_lt_Some.
      - by apply lookup_app_l_Some.
      - by rewrite list_lookup_middle. }
    rewrite Hdup. rewrite IH; rewrite <- app_assoc; done.
Qed.

(** X1: no two faces [remove_duplicate_faces] returns are too close: the
    centers of any two of them, at different positions of the result, are at
    least half the smaller size apart. *)
Theorem remove_duplicate_faces_apart (faces : list box) (i j : nat) (a b : box) :
  i <> j ->
  remove_duplicate_faces faces !! i = Some a ->
  remove_duplicate_faces faces !! j = Some b ->
  too_close a b = false.
Proof.
  intros Hij Hi Hj.
  destruct (decide (2 <= length faces)%nat) as [Hlen|Hshort].
  - pose proof (remove_duplicate_faces_separated faces Hlen) as Hsep.
    destruct (decide (i < j)%nat).
    + rewrite too_close_sym. by apply (Hsep i j).
    + apply (Hsep j i); [lia|done|done].
  - unfold remove_duplicate_faces in Hi, Hj.
    destruct (Nat.leb_spec (length faces) 1); [|lia].
    apply lookup_lt_Some in Hi. apply lookup_lt_Some in Hj. lia.
Qed.

(** X2: the result is a sub-sequence of the input, in the input's order,
    and the first face of the input is always kept, in first place. *)
Theorem remove_duplicate_faces_sublist (faces : list box) :
  remove_duplicate_faces faces `sublist_of` faces /\
  head (remove_duplicate_faces faces) = head faces.
Proof.
  unfold remove_duplicate_faces.
  destruct (length faces <=? 1)%nat; [done|].
  destruct (dedup_loop_kept faces []) as (kept & Hkept & Hsub).
  rewrite Hkept. simpl. split; [done|].
  destruct faces as [|face rest]; [by apply sublist_nil_r in Hsub as ->|].
  simpl in Hkept.
  destruct (dedup_loop_kept rest [face]) as (more & Hmore & _).
  rewrite Hmore in Hkept. by rewrite <- Hkept.
Qed.

(** *** Boxes of either integer type *)

Lemma wrap32_small (z : Z) : - 2 ^ 31 <= z < 2 ^ 31 -> wrap32 z = z.
Proof.
  intros Hz. unfold wrap32. change (2 ^ 31) with 2147483648 in *.
  change (2 ^ 32) with 4294967296. rewrite Z.mod_small; lia.
Qed.

Lemma center_range (b : box) :
  int32_exact b ->
  0 <= fst (center b) < 2 ^ 15 /\ 0 <= snd (center b) < 2 ^ 15.
Proof.
  unfold int32_exact, center. change (2 ^ 15) with 32768. simpl.
  intros (Ht & Hr & Hb & Hl).
  repeat split; try (apply Z.div_pos; lia); apply Z.div_lt_upper_bound; lia.
Qed.

Lemma center32_exact (b : box) : int32_exact b -> center32 b = center b.
Proof.
  unfold int32_exact, center32, center. change (2 ^ 15) with 32768.
  intros (Ht & Hr & Hb & Hl).
  rewrite !wrap32_small; [done| |]; change (2 ^ 31) with 2147483648; lia.
Qed.

Lemma face_size32_exact (b : box) : int32_exact b -> face_size32 b = face_size b.
Proof.
  unfold int32_exact, face_size32, face_size. change (2 ^ 15) with 32768.
  intros (Ht & Hr & Hb & Hl).
  rewrite !wrap32_small; [done| |]; change (2 ^ 31) with 2147483648; lia.
Qed.

Lemma dist2_32_exact (c1 c2 : Z * Z) :
  0 <= fst c1 < 2 ^ 15 -> 0 <= snd c1 < 2 ^ 15 ->
  0 <= fst c2 < 2 ^ 15 -> 0 <= snd c2 < 2 ^ 15 ->
  dist2_32 c1 c2 = dist2 c1 c2.
Proof.
  unfold dist2_32, dist2. change (2 ^ 15) with 32768.
  destruct c1 as [x1 y1], c2 as [x2 y2]. simpl. intros Hx1 Hy1 Hx2 Hy2.
  rewrite (wrap32_small (x1 - x2)), (wrap32_small (y1 - y2))
    by (change (2 ^ 31) with 2147483648; lia).
  rewrite !Z.pow_2_r.
  rewrite (wrap32_small ((x1 - x2) * (x1 - x2))),
    (wrap32_small ((y1 - y2) * (y1 - y2)))
    by (change (2 ^ 31) with 2147483648; nia).
  apply wrap32_small. change (2 ^ 31) with 2147483648. nia.
Qed.

(** Below 2^15 the test on [numpy.int32] operands is the test on Python
    ints. *)
Lemma too_close32_exact (face existing : box) :
  int32_exact face -> int32_exact existing ->
  too_close32 face existing = too_close face existing.
Proof.
  intros Hface Hexisting. unfold too_close32, too_close, min_size.
  rewrite !center32_exact, !face_size32_exact by done.
  destruct (center_range face Hface) as [? ?].
  destruct (center_range existing Hexisting) as [? ?].
  rewrite dist2_32_exact by done.
  pose proof (dist2_nonneg (center face) (center existing)) as Hpos.
  apply Z.leb_le in Hpos. by rewrite Hpos.
Qed.

Lemma dedup_loop32_exact (faces unique_faces : list box) :
  Forall int32_exact faces -> Forall int32_exact unique_faces ->
  dedup_loop32 faces unique_faces = dedup_loop faces unique_faces.
Proof.
  revert unique_faces.
  induction faces as [|face rest IH]; intros unique_faces Hfaces Hunique; [done|].
  apply Forall_cons in Hfaces as [Hface Hrest]. simpl.
  assert (Hdup : is_duplicate32 face unique_faces = is_duplicate face unique_faces).
  { unfold is_duplicate32, is_duplicate.
    induction Hunique as [|existing others Hexisting _ IHothers]; [done|].
    simpl. by rewrite too_close32_exact, IHothers. }
  rewrite Hdup. apply IH; [done|].
  destruct (is_duplicate face unique_faces); [done|].
  apply Forall_app. split; [done|]. by apply Forall_singleton.
Qed.

(** X3: on the boxes of an image less than 2^15 pixels wide and high the
    merge is the same whether the boxes hold Python ints or [numpy.int32],
    and a face is only dropped for a reason: every face of the input is in
    the result or is too close to a face of the result. *)
Theorem remove_duplicate_faces_covers (faces : list box) (face : box) :
  Forall int32_exact faces ->
  face ∈ faces ->
  remove_duplicate_faces32 faces = remove_duplicate_faces faces /\
  (face ∈ remove_duplicate_faces faces \/
   exists kept, kept ∈ remove_duplicate_faces faces /\
                too_close face kept = true /\ too_close32 face kept = true).
Proof.
  intros Hrange Hin. split.
  { unfold remove_duplicate_faces32, remove_duplicate_faces.
    destruct (length faces <=? 1)%nat; [done|].
    by apply dedup_loop32_exact. }
  assert (Hcovers :
    face ∈ remove_duplicate_faces faces \/
    exists kept, kept ∈ remove_duplicate_faces faces /\ too_close face kept = true).
  { unfold remove_duplicate_faces.
    destruct (length faces <=? 1)%nat; [by left|].
    by apply dedup_loop_covers. }
  destruct Hcovers as [?|(kept & Hkept & Hclose)]; [by left|].
  right. exists kept. split; [done|]. split; [done|].
  rewrite too_close32_exact; [done| |].
  - rewrite Forall_forall in Hrange. by apply Hrange.
  - rewrite Forall_forall in Hrange. apply Hrange.
    assert (Hsub : remove_duplicate_faces faces ⊆ faces); [|by apply Hsub].
    unfold remove_duplicate_faces. destruct (length faces <=? 1)%nat; [done|].
    destruct (dedup_loop_kept faces []) as (kept' & -> & Hsublist).
    simpl. by apply sublist_subseteq.
Qed.

(** X4: merging twice changes nothing more. *)
Theorem remove_duplicate_faces_idempotent (faces : list box) :
  remove_duplicate_faces (remove_duplicate_faces faces) = remove_duplicate_faces faces.
Proof.
  destruct (decide (length faces <= 1)%nat) as [Hshort|Hlong].
  - unfold remove_duplicate_faces at 2.
    destruct (Nat.leb_spec (length faces) 1); [|lia].
    unfold remove_duplicate_faces. by destruct (Nat.leb_spec (length faces) 1); [|lia].
  - pose proof (remove_duplicate_faces_separated faces ltac:(lia)) as Hsep.
    unfold remove_duplicate_faces at 1.
    destruct (length (remove_duplicate_faces faces) <=? 1)%nat; [done|].
    by apply (dedup_loop_apart _ []).
Qed.

Lemma insert_by_area_perm b sorted : insert_by_area b sorted ≡ₚ b :: sorted.
Proof.
  induction sorted as [|c rest IH]; simpl; [done|].
  destruct (area c <? area b); [done|]. rewrite IH. apply Permutation_swap.
Qed.

Lemma insert_by_area_sorted b sorted :
  StronglySorted by_area_desc sorted ->
  StronglySorted by_area_desc (insert_by_area b sorted).
Proof.
  induction 1 as [|c rest Hrest IH Hc]; simpl.
  - by repeat constructor.
  - destruct (Z.ltb_spec (area c) (area b)).
    + constructor; [by constructor|].
      constructor; [unfold by_area_desc; lia|].
      eapply Forall_impl; [exact Hc|]. unfold by_area_desc. intros; lia.
    + constructor; [done|].
      rewrite insert_by_area_perm. by constructor.
Qed.

Lemma sort_by_area_from l : forall acc,
  StronglySorted by_area_desc acc ->
  StronglySorted by_area_desc (fold_left (fun acc b => insert_by_area b acc) l acc) /\
  fold_left (fun acc b => insert_by_area b acc) l acc ≡ₚ acc ++ l.
Proof.
  induction l as [|b rest IH]; intros acc Hacc; simpl.
  - by rewrite app_nil_r.
  - destruct (IH (insert_by_area b acc)) as [Hsorted Hperm];
      [by apply insert_by_area_sorted|].
    split; [done|]. rewrite Hperm, insert_by_area_perm. simpl.
    by rewrite Permutation_middle.
Qed.

(** X5: [filter_and_validate_faces] returns exactly the faces at least
    [min_face_size] wide and high, each as often as it came in, the largest
    area first. *)
Theorem filter_and_validate_faces_sorted (min_face_size : Z) (faces : list box) :
  filter_and_validate_faces min_face_size faces
    ≡ₚ filter (fun b => valid_size min_face_size b = true) faces /\
  StronglySorted by_area_desc (filter_and_validate_faces min_face_size faces).
Proof.
  unfold filter_and_validate_faces, sort_by_area.
  destruct (sort_by_area_from (filter (fun b => valid_size min_face_size b = true) faces) [])
    as [Hsorted Hperm]; [constructor|].
  by split.
Qed.

Lemma remove_duplicate_faces_apart_witness :
  too_close (Box 0 10 10 0) (Box 0 40 10 30) = false.
Proof.
  apply (remove_duplicate_faces_apart
           [Box 0 10 10 0; Box 2 13 12 3; Box 0 40 10 30] 0 1);
    [done|reflexivity|reflexivity].
Defined.

Lemma remove_duplicate_faces_covers_witness :
  remove_duplicate_faces32 [Box 0 10 10 0; Box 2 13 12 3]
  = remove_duplicate_faces [Box 0 10 10 0; Box 2 13 12 3] /\
  (Box 2 13 12 3 ∈ remove_duplicate_faces [Box 0 10 10 0; Box 2 13 12 3] \/
   exists kept,
     kept ∈ remove_duplicate_faces [Box 0 10 10 0; Box 2 13 12 3] /\
     too_close (Box 2 13 12 3) kept = true /\
     too_close32 (Box 2 13 12 3) kept = true).
Proof.
  apply (remove_duplicate_faces_covers [Box 0 10 10 0; Box 2 13 12 3]).
  - repeat constructor; done.
  - apply elem_of_cons. right. apply elem_of_cons. by left.
Defined.

End DetectionMore.

(** ** Loading and saving artifacts *)

Module PersistenceFacts.

Import Gallery Persistence Samples RegistrationFacts GalleryFacts.

Section Facts.

Context {Enc : Type}.

Variable process_single_image : string -> task Enc.

(** One file: the map gets the file's record when the student is absent
    and the file loads, and is left alone otherwise. *)
Lemma load_file_database now (acc : nat * system Enc) student_id content :
  student_database (snd (load_file now acc (student_id, content))) =
    match student_database (snd acc) !! student_id, loadable now student_id content with
    | None, Some d => <[student_id := d]> (student_database (snd acc))
    | _, _ => student_database (snd acc)
    end.
Proof.
  destruct acc as [loaded_count s]. unfold load_file, loadable. simpl.
  destruct (is_generic student_id); [by destruct (student_database s !! student_id)|].
  destruct content as [|a]; [by destruct (student_database s !! student_id)|].
  destruct (student_database s !! student_id); [by destruct (a_encodings a), (a_name a)|].
  by destruct (a_encodings a), (a_name a).
Qed.

Lemma load_files_lookup now (files : list (string * file Enc)) :
  forall (acc : nat * system Enc) student_id,
    NoDup files.*1 ->
    student_database (snd (fold_left (load_file now) files acc)) !! student_id =
      match student_database (snd acc) !! student_id with
      | Some d => Some d
      | None =>
          (list_to_map files : gmap string (file Enc)) !! student_id
            ≫= loadable now student_id
      end.
Proof.
  induction files as [|[k f] rest IH]; intros acc student_id Hnodup.
  - simpl. rewrite lookup_empty. by destruct (student_database (snd acc) !! student_id).
  - cbn in Hnodup. apply NoDup_cons in Hnodup as [Hfresh Hnodup].
    cbn [fold_left]. rewrite IH by done. rewrite load_file_database.
    cbn [list_to_map foldr]. simpl.
    destruct (decide (k = student_id)) as [->|Hne].
    + rewrite lookup_insert_eq. simpl.
      rewrite (not_elem_of_list_to_map_1 _ student_id) by done. simpl.
      destruct (student_database (snd acc) !! student_id) as [d|] eqn:Hdb.
      * by rewrite Hdb.
      * destruct (loadable now student_id f) as [d|]; [by rewrite lookup_insert_eq|].
        by rewrite Hdb.
    + rewrite (lookup_insert_ne _ k student_id) by done.
      destruct (student_database (snd acc) !! k), (loadable now k f);
        try done.
      by rewrite lookup_insert_ne.
Qed.

(** The per-student map after loading: the entries it had, and for every
    other student what the student's artifact contributes. *)
Lemma load_precomputed_encodings_lookup (s : system Enc) (w : world Enc) student_id :
  student_database (snd (load_precomputed_encodings s w)) !! student_id =
    match student_database s !! student_id with
    | Some d => Some d
    | None => artifact_of w student_id ≫= loadable (clock w) student_id
    end.
Proof.
  unfold load_precomputed_encodings, artifact_of.
  destruct (precomputed_encodings w) as [dir|];
    [|simpl; by destruct (student_database s !! student_id)].
  destruct (map_to_list dir) as [|f rest] eqn:Hfiles.
  - apply map_to_list_empty_iff in Hfiles as ->. rewrite lookup_empty. simpl.
    by destruct (student_database s !! student_id).
  - pose proof (load_files_lookup (clock w) (map_to_list dir) (0%nat, s) student_id
                  (NoDup_fst_map_to_list dir)) as Hlookup.
    rewrite list_to_map_to_list in Hlookup. rewrite Hfiles in Hlookup.
    by destruct (fold_left _ _ _).
Qed.

(** A pass over files that have nothing to add changes nothing. *)
Lemma load_files_nothing now (files : list (string * file Enc)) :
  forall (acc : nat * system Enc),
    (forall k f, (k, f) ∈ files -> is_Some (loadable now k f) ->
       is_Some (student_database (snd acc) !! k)) ->
    fold_left (load_file now) files acc = acc.
Proof.
  induction files as [|[k f] rest IH]; intros acc Hfull; [done|].
  cbn [fold_left].
  assert (Hstep : load_file now acc (k, f) = acc).
  { destruct acc as [loaded_count s]. unfold load_file.
    pose proof (Hfull k f ltac:(apply elem_of_cons; by left)) as Hk.
    unfold loadable in Hk. simpl in *.
    destruct (is_generic k); [done|]. destruct f as [|a]; [done|].
    destruct (student_database s !! k); [done|].
    destruct (a_encodings a), (a_name a); try done.
    by destruct Hk. }
  rewrite Hstep. apply IH. intros k' f' Hin. apply Hfull. apply elem_of_cons. by right.
Qed.

(** X6: after [load_precomputed_encodings] a student who was in the map
    has the record the student had, and any other student has exactly what
    the student's artifact contributes: nothing for an old generic
    STUDENT_ file, an unreadable file or one without 'encodings' or 'name'. *)
Theorem load_precomputed_encodings_database (s : system Enc) (w : world Enc)
  (student_id : string) :
  (forall d, student_database s !! student_id = Some d ->
     student_database (snd (load_precomputed_encodings s w)) !! student_id = Some d) /\
  (student_database s !! student_id = None ->
     student_database (snd (load_precomputed_encodings s w)) !! student_id
     = artifact_of w student_id ≫= loadable (clock w) student_id) /\
  (student_database s !! student_id = None ->
     is_generic student_id = true ->
     student_database (snd (load_precomputed_encodings s w)) !! student_id = None).
Proof.
  rewrite load_precomputed_encodings_lookup.
  split; [by intros d ->|]. split; [by intros ->|].
  intros -> Hgeneric. destruct (artifact_of w student_id) as [content|]; [|done].
  simpl. unfold loadable. by rewrite Hgeneric.
Qed.

(** X7: loading again adds nothing: the second call reports that it
    loaded no student and leaves the system as the first call left it. *)
Theorem load_precomputed_encodings_twice (s : system Enc) (w : world Enc) :
  load_precomputed_encodings (snd (load_precomputed_encodings s w)) w
  = (false, snd (load_precomputed_encodings s w)).
Proof.
  pose proof (load_precomputed_encodings_lookup s w) as Hlookup.
  set (s1 := snd (load_precomputed_encodings s w)) in *.
  unfold load_precomputed_encodings at 1. unfold artifact_of in Hlookup.
  destruct (precomputed_encodings w) as [dir|]; [|done].
  destruct (map_to_list dir) as [|f rest] eqn:Hfiles; [done|].
  rewrite (load_files_nothing (clock w) (f :: rest) (0%nat, s1)); [done|].
  intros k content Hin Hloadable. simpl.
  rewrite <- Hfiles in Hin. apply elem_of_map_to_list in Hin.
  rewrite Hlookup, Hin. simpl.
  destruct (student_database s !! k); [done|]. done.
Qed.

(** X8: a record written by [save_precomputed_encoding] is read back as
    it was: loading into an emptied system gives the student the saved
    record, provided the id is not an old generic STUDENT_ id and the
    record counts its encodings right.  When the write fails the load gives
    nothing for a file left truncated, and what the old file gives when the
    file could not be opened. *)
Theorem save_then_load (s : system Enc) (w : world Enc) (student_id : string)
  (d : student_data Enc) :
  is_generic student_id = false ->
  sd_total_encodings d = length (sd_encodings d) ->
  student_database
    (snd (load_precomputed_encodings (clear s)
            (save_precomputed_encoding w student_id d))) !! student_id
  = match json_write w student_id with
    | Written => Some d
    | Truncated => None
    | NotOpened | NoDirectory =>
        artifact_of w student_id ≫= loadable (clock w) student_id
    end.
Proof.
  intros Hproper Htotal. rewrite load_precomputed_encodings_lookup. simpl.
  rewrite lookup_empty, clock_save. unfold artifact_of, save_precomputed_encoding.
  destruct (json_write w student_id); simpl.
  - rewrite lookup_insert_eq. simpl.
    unfold loadable. rewrite Hproper. simpl. rewrite <- Htotal. by destruct d.
  - rewrite lookup_insert_eq. simpl. unfold loadable. by rewrite Hproper.
  - destruct (precomputed_encodings w); [done|]. simpl. by rewrite lookup_empty.
  - done.
Qed.

(** X9: when some artifact loads, [load_student_database] drops what was
    in memory and rebuilds the gallery from the artifacts alone: the map is
    what the artifacts contribute, the lists agree with it, and nothing
    outside the object changes. *)
Theorem load_student_database_from_artifacts (s : system Enc) (w : world Enc) :
  fst (load_precomputed_encodings (clear s) w) = true ->
  exists s1,
    load_student_database process_single_image s w = Some (s1, w) /\
    consistent s1 /\
    forall student_id,
      student_database s1 !! student_id
      = artifact_of w student_id ≫= loadable (clock w) student_id.
Proof.
  intros Hloaded. unfold load_student_database.
  pose proof (load_precomputed_encodings_lookup (clear s) w) as Hlookup.
  pose proof (load_precomputed_encodings_consistent (clear s) w (clear_consistent s))
    as Hconsistent.
  destruct (load_precomputed_encodings (clear s) w) as [success s1].
  simpl in *. subst success. exists s1. split; [done|]. split; [done|].
  intros student_id. rewrite Hlookup. simpl. by rewrite lookup_empty.
Qed.

End Facts.

Lemma save_then_load_witness :
  student_database
    (snd (load_precomputed_encodings (clear ann_bob_system)
            (save_precomputed_encoding fresh_world "ANN"
               (new_student_data "Ann" [0%Q] 5)))) !! "ANN"
  = Some (new_student_data "Ann" [0%Q] 5).
Proof.
  apply (save_then_load ann_bob_system fresh_world "ANN"
           (new_student_data "Ann" [0%Q] 5)); reflexivity.
Defined.

Lemma load_student_database_from_artifacts_witness :
  exists s1,
    load_student_database sample_task ann_bob_system persisted_world
      = Some (s1, persisted_world) /\
    consistent s1 /\
    forall student_id,
      student_database s1 !! student_id
      = artifact_of persisted_world student_id
          ≫= loadable (clock persisted_world) student_id.
Proof.
  apply (load_student_database_from_artifacts sample_task ann_bob_system
           persisted_world).
  reflexivity.
Defined.

End PersistenceFacts.

(** ** Registration, further *)

Module RegistrationMore.

Import Gallery Persistence Samples RegistrationFacts.

Section Facts.

Context {Enc : Type}.

Variable process_single_image : string -> task Enc.

(** What a returning [register_student] did, read off its result. *)
Lemma register_student_inv (s : system Enc) (w : world Enc)
  student_id student_name image_paths success s' w' :
  register_student process_single_image s w student_id student_name image_paths
    = Some (success, s', w') ->
  exists all_encodings,
    all_encodings ≡ₚ encodings_of process_single_image image_paths /\
    ((success = false /\ all_encodings = [] /\ s' = s /\
      w' = submit_all w image_paths) \/
     (success = true /\ all_encodings <> [] /\
      s' = add_student s student_id
             (new_student_data student_name all_encodings (clock w)) /\
      w' = save_precomputed_encoding (submit_all w image_paths) student_id
             (new_student_data student_name all_encodings (clock w)))).
Proof.
  unfold register_student, as_completed. intros Hreg.
  destruct (as_completed_from _ _) as [completed|] eqn:Hc; [|done].
  assert (Hfin : Forall (fun f => finishes (snd f))
                   (futures_of process_single_image image_paths)).
  { clear Hreg. unfold futures_of. revert Hc. generalize (@nil (nat * (string * task Enc))).
    induction image_paths as [|p rest IH]; intros done' Hc; [constructor|].
    simpl in Hc. destruct (finish_time (process_single_image p)) as [seconds|] eqn:Hp;
      [|done].
    constructor; [by exists seconds|]. by eapply IH. }
  destruct (as_completed_from_finishes _ [] Hfin) as (completed' & Hc' & Hperm).
  unfold futures_of in Hc'. rewrite Hc in Hc'. injection Hc' as <-.
  simpl in Hperm.
  exists (omap future_result completed). split.
  { by rewrite Hperm, omap_futures_of. }
  destruct (omap future_result completed) as [|e rest].
  - left. by injection Hreg as <- <- <-.
  - right. by injection Hreg as <- <- <-.
Qed.

(** A file that is there stays there, whatever the write does. *)
Lemma encoding_exists_save_mono (w : world Enc) student_id (d : student_data Enc)
  other :
  encoding_exists w other = true ->
  encoding_exists (save_precomputed_encoding w student_id d) other = true.
Proof.
  rewrite !encoding_exists_artifact.
  destruct (decide (other = student_id)) as [->|Hne];
    [|by rewrite artifact_of_save_ne].
  unfold artifact_of, save_precomputed_encoding.
  destruct (json_write w student_id); simpl; rewrite ?lookup_insert_eq;
    try (by eexists); by destruct (precomputed_encodings w).
Qed.

Lemma artifact_of_save_written (w : world Enc) student_id (d : student_data Enc) :
  json_write w student_id = Written ->
  artifact_of (save_precomputed_encoding w student_id d) student_id
  = Some (artifact_for d).
Proof.
  intros Hwrite. unfold artifact_of, save_precomputed_encoding. rewrite Hwrite.
  simpl. apply lookup_insert_eq.
Qed.

(** X10: when [register_student] succeeds, the record in the map holds the
    embeddings the images yielded, at least one, under the given name.  What
    is on disk depends on the write, whose failure the method does not see:
    when the artifact is written it exists and loading it gives the record
    back; a write that fails after opening leaves an unreadable file; a file
    that cannot be opened leaves the disk as it was, although the call
    returns [True]. *)
Theorem register_student_persists (s : system Enc) (w : world Enc)
  (student_id student_name : string) (image_paths : list string)
  (s' : system Enc) (w' : world Enc) :
  register_student process_single_image s w student_id student_name image_paths
    = Some (true, s', w') ->
  exists d,
    student_database s' !! student_id = Some d /\
    sd_name d = student_name /\
    sd_encodings d ≡ₚ encodings_of process_single_image image_paths /\
    sd_encodings d <> [] /\
    sd_image_count d = length (sd_encodings d) /\
    match json_write w student_id with
    | Written =>
        encoding_exists w' student_id = true /\
        (is_generic student_id = false ->
         artifact_of w' student_id ≫= loadable (clock w') student_id = Some d)
    | Truncated => artifact_of w' student_id = Some Unreadable
    | NotOpened | NoDirectory => artifact_of w' student_id = artifact_of w student_id
    end.
Proof.
  intros Hreg.
  apply register_student_inv in Hreg
    as (all & Hperm & [(Hs & _)|(_ & Hne & -> & ->)]); [done|].
  exists (new_student_data student_name all (clock w)).
  split; [apply lookup_insert_eq|]. split; [done|]. split; [done|].
  split; [done|]. split; [done|].
  change (json_write w student_id)
    with (json_write (submit_all w image_paths) student_id).
  destruct (json_write (submit_all w image_paths) student_id) eqn:Hwrite.
  - split.
    + apply encoding_exists_artifact. rewrite artifact_of_save_written by done.
      by eexists.
    + intros Hproper. rewrite artifact_of_save_written by done. simpl.
      unfold loadable. by rewrite Hproper.
  - unfold artifact_of, save_precomputed_encoding. rewrite Hwrite. simpl.
    apply lookup_insert_eq.
  - unfold artifact_of, save_precomputed_encoding. rewrite Hwrite. simpl.
    destruct (precomputed_encodings w); [done|apply lookup_empty].
  - unfold save_precomputed_encoding. by rewrite Hwrite.
Qed.

(** X11: [register_student] touches one student only: every other
    student keeps the record and the artifact the student had, the two lists
    are only extended, by as many names as embeddings, and the folders are
    as they were. *)
Theorem register_student_frame (s : system Enc) (w : world Enc)
  (student_id student_name : string) (image_paths : list string)
  (success : bool) (s' : system Enc) (w' : world Enc) :
  register_student process_single_image s w student_id student_name image_paths
    = Some (success, s', w') ->
  (forall other, other <> student_id ->
     student_database s' !! other = student_database s !! other /\
     artifact_of w' other = artifact_of w other) /\
  (exists added,
     known_face_encodings s' = known_face_encodings s ++ added /\
     known_face_names s'
     = known_face_names s ++ replicate (length added) student_id) /\
  student_photos w' = student_photos w /\
  submitted w' = submitted w ++ image_paths.
Proof.
  intros Hreg.
  apply register_student_inv in Hreg
    as (all & Hperm & [(_ & _ & -> & ->)|(_ & Hne & -> & ->)]).
  - split; [done|]. split; [|done]. exists []. by rewrite !app_nil_r.
  - split; [|split; [|by rewrite student_photos_save, submitted_save]].
    + intros other Hother. split.
      * simpl. by rewrite lookup_insert_ne.
      * by rewrite artifact_of_save_ne.
    + by exists all.
Qed.

(** One student of the processing loop, read off its result. *)
Lemma process_folder_inv (s : system Enc) (w : world Enc) (r : results)
  folder images s' w' r' :
  process_folder process_single_image s w r (folder, images) = Some (s', w', r') ->
  exists d,
    r' = {| total_students := total_students r;
            successful := (if detail_success d then S (successful r)
                           else successful r);
            failed := (if detail_success d then failed r else S (failed r));
            details := <[folder := d]> (details r) |} /\
    (detail_success d = true ->
     json_write w (student_id_of folder) = Written ->
     encoding_exists w' (student_id_of folder) = true) /\
    (forall sid, encoding_exists w sid = true -> encoding_exists w' sid = true) /\
    json_write w' = json_write w.
Proof.
  unfold process_folder. destruct images as [|image rest] eqn:Himages.
  - intros [= <- <- <-]. by exists (Failed "No images found" 0).
  - rewrite <- Himages. clear Himages.
    destruct (register_student _ _ _ _ _ _) as [[[success s1] w1]|] eqn:Hreg; [|done].
    pose proof Hreg as Hinv.
    apply register_student_inv in Hinv
      as (all & Hperm & [(-> & _ & -> & ->)|(-> & Hne & -> & ->)]).
    + intros [= <- <- <-]. exists (Failed "Registration failed" (length images)).
      by split.
    + intros [= <- <- <-]. eexists (Registered _ _ _ _). split; [done|].
      split; [|split].
      * intros _ Hwrite. apply encoding_exists_artifact.
        rewrite artifact_of_save_written by done. by eexists.
      * intros sid Hsid. by apply encoding_exists_save_mono.
      * by rewrite json_write_save.
Qed.

(** The keys of [details] and the two counters along the processing loop. *)
Lemma process_folders_inv (folders : list (string * list string)) :
  forall (s : system Enc) (w : world Enc) (r : results) s' w' r',
    process_folders process_single_image s w r folders = Some (s', w', r') ->
    total_students r' = total_students r /\
    successful r' + failed r' = successful r + failed r + length folders /\
    (forall k, is_Some (details r' !! k) <->
               is_Some (details r !! k) \/ k ∈ folders.*1) /\
    (forall sid, encoding_exists w sid = true -> encoding_exists w' sid = true) /\
    (NoDup folders.*1 ->
     forall folder d, folder ∈ folders -> details r' !! fst folder = Some d ->
       detail_success d = true ->
       json_write w (student_id_of (fst folder)) = Written ->
       encoding_exists w' (student_id_of (fst folder)) = true) /\
    (forall k, k ∉ folders.*1 -> details r' !! k = details r !! k) /\
    json_write w' = json_write w.
Proof.
  induction folders as [|[folder images] rest IH]; intros s w r s' w' r' Hrun.
  - injection Hrun as <- <- <-. split; [done|]. split; [simpl; lia|].
    split; [|split; [done|split; [|done]]].
    + intros k. split; [by left|]. intros [?|Hk]; [done|]. by apply elem_of_nil in Hk.
    + intros _ f d Hf. by apply elem_of_nil in Hf.
  - cbn [process_folders] in Hrun.
    destruct (process_folder _ s w r (folder, images)) as [[[s1 w1] r1]|] eqn:Hstep;
      [|done].
    apply process_folder_inv in Hstep as (d & -> & Hsaved & Hmono & Hjson).
    apply IH in Hrun as (Htotal & Hsum & Hkeys & Hmono' & Hsuccess & Hframe & Hjson').
    simpl in *. split; [done|]. split; [destruct (detail_success d); lia|].
    split; [|split; [auto|split; [|split]]].
    + intros k. rewrite Hkeys. rewrite lookup_insert. rewrite elem_of_cons.
      destruct (decide (folder = k)) as [->|Hne].
      * split; [intros _; right; by left|intros _; left; by eexists].
      * split; [intros [?|?]; [by left|right; by right]|].
        intros [?|[?|?]]; [by left|congruence|by right].
    + intros Hnodup f d' Hf Hd' Hok Hwrite.
      apply NoDup_cons in Hnodup as [Hfresh Hnodup].
      apply elem_of_cons in Hf as [->|Hf].
      * simpl in *. rewrite Hframe in Hd' by done. rewrite lookup_insert_eq in Hd'.
        injection Hd' as <-. auto.
      * eapply Hsuccess; [done|done|done|done|]. by rewrite Hjson.
    + intros k Hk. apply not_elem_of_cons in Hk as [Hne Hk].
      rewrite Hframe by done. by rewrite lookup_insert_ne.
    + congruence.
Qed.

Lemma use_existing_counts (w : world Enc) (folders : list (string * list string)) :
  forall r,
    total_students (fold_left (use_existing w) folders r) = total_students r /\
    successful (fold_left (use_existing w) folders r)
      + failed (fold_left (use_existing w) folders r)
    = successful r + failed r + length folders /\
    (forall k, is_Some (details (fold_left (use_existing w) folders r) !! k) <->
               is_Some (details r !! k) \/ k ∈ folders.*1) /\
    (forall k d, details (fold_left (use_existing w) folders r) !! k = Some d ->
       detail_success d = true ->
       details r !! k = Some d \/ encoding_exists w (student_id_of k) = true).
Proof.
  induction folders as [|f rest IH]; intros r.
  - simpl. split; [done|]. split; [lia|]. split; [|by left].
    intros k. split; [by left|]. intros [?|Hk]; [done|]. by apply elem_of_nil in Hk.
  - cbn [fold_left]. destruct (IH (use_existing w r f)) as (Htotal & Hsum & Hkeys & Hok).
    rewrite Htotal, Hsum.
    assert (Hstep :
      total_students (use_existing w r f) = total_students r /\
      successful (use_existing w r f) + failed (use_existing w r f)
        = S (successful r + failed r) /\
      exists d, details (use_existing w r f) = <[fst f := d]> (details r) /\
                (detail_success d = true ->
                 encoding_exists w (student_id_of (fst f)) = true)).
    { unfold use_existing.
      destruct (encoding_exists w (student_id_of (fst f))) eqn:Hex; simpl.
      - split; [done|]. split; [lia|]. by eexists.
      - split; [done|]. split; [lia|]. by eexists. }
    destruct Hstep as (Ht & Hs & d & Hd & Hdok).
    split; [done|]. split; [simpl; lia|]. split.
    + intros k. rewrite Hkeys, Hd, lookup_insert. cbn. rewrite elem_of_cons.
      destruct (decide (fst f = k)) as [<-|Hne].
      * split; [intros _; right; by left|intros _; left; by eexists].
      * split; [intros [?|?]; [by left|right; by right]|].
        intros [?|[?|?]]; [by left|congruence|by right].
    + intros k d' Hk Hsucc. destruct (Hok k d' Hk Hsucc) as [Hold|?]; [|by right].
      rewrite Hd in Hold. rewrite lookup_insert in Hold.
      destruct (decide (fst f = k)) as [<-|Hne]; [|by left].
      injection Hold as <-. right. auto.
Qed.

Lemma select_missing_step (w : world Enc) r acc (f : string * list string) :
  select_missing w (r, acc) f =
    if encoding_exists w (student_id_of (fst f))
    then (add_success r (fst f)
            (FromPrecomputed (student_id_of (fst f)) (student_name_of (fst f))),
          acc)
    else (r, acc ++ [f]).
Proof. done. Qed.

Lemma select_missing_counts (w : world Enc) (folders : list (string * list string)) :
  forall r acc,
    let out := fold_left (select_missing w) folders (r, acc) in
    total_students (fst out) = total_students r /\
    successful (fst out) + failed (fst out) + length (snd out)
    = successful r + failed r + length acc + length folders /\
    (forall k, is_Some (details (fst out) !! k) \/ k ∈ (snd out).*1 <->
               is_Some (details r !! k) \/ k ∈ acc.*1 \/ k ∈ folders.*1) /\
    (forall k d, details (fst out) !! k = Some d -> detail_success d = true ->
       details r !! k = Some d \/ encoding_exists w (student_id_of k) = true).
Proof.
  induction folders as [|f rest IH]; intros r acc out.
  - subst out. simpl. split; [done|]. split; [lia|]. split; [|by left].
    intros k. rewrite elem_of_nil. tauto.
  - subst out. cbn [fold_left]. rewrite select_missing_step.
    destruct (encoding_exists w (student_id_of (fst f))) eqn:Hex.
    + destruct (IH (add_success r (fst f)
                      (FromPrecomputed (student_id_of (fst f)) (student_name_of (fst f))))
                  acc) as (Htotal & Hsum & Hkeys & Hok).
      split; [done|]. split; [simpl in *; lia|]. split.
      * intros k. rewrite Hkeys. simpl. rewrite lookup_insert, elem_of_cons.
        destruct (decide (fst f = k)) as [<-|Hne].
        -- split; [intros _; right; right; by left|intros _; left; by eexists].
        -- split; [intros [?|[?|?]]; tauto|].
           intros [?|[?|[?|?]]]; try tauto. congruence.
      * intros k d Hk Hsucc. destruct (Hok k d Hk Hsucc) as [Hold|?]; [|by right].
        simpl in Hold. rewrite lookup_insert in Hold.
        destruct (decide (fst f = k)) as [<-|Hne]; [|by left].
        by right.
    + destruct (IH r (acc ++ [f])) as (Htotal & Hsum & Hkeys & Hok).
      split; [done|]. rewrite length_app in Hsum. split; [simpl in *; lia|].
      split; [|done].
      intros k. rewrite Hkeys. rewrite fmap_app, elem_of_app. simpl.
      rewrite !elem_of_cons, elem_of_nil. tauto.
Qed.

(** X12: the results of a batch add up: every student folder, and
    nothing else, has an entry in [details], and [successful] plus [failed]
    is [total_students], the number of folders. *)
Theorem batch_register_counts (s : system Enc) (w : world Enc)
  (entries : list (string * option (list string)))
  (r : results) (s' : system Enc) (w' : world Enc) :
  student_photos w = Some entries ->
  batch_register_from_folders process_single_image s w
    = Some (BatchResults r, s', w') ->
  total_students r = length (student_folders entries) /\
  successful r + failed r = total_students r /\
  forall k, is_Some (details r !! k) <-> k ∈ (student_folders entries).*1.
Proof.
  intros Hphotos. unfold batch_register_from_folders. rewrite Hphotos.
  destruct (student_folders entries) as [|f0 rest] eqn:Hfolders; [done|].
  rewrite <- Hfolders. clear Hfolders.
  set (r0 := {| total_students := _; successful := _; failed := _; details := _ |}).
  destruct (length (student_folders entries) <=? length (existing_encodings w))%nat.
  - intros [= <- <- <-].
    destruct (use_existing_counts w (student_folders entries) r0)
      as (Htotal & Hsum & Hkeys & _).
    rewrite Htotal, Hsum. simpl. split; [done|]. split; [lia|].
    intros k. rewrite Hkeys. simpl. rewrite lookup_empty.
    split; [intros [[? ?]|?]; done|by right].
  - pose proof (select_missing_counts w (student_folders entries) r0 [])
      as (Htotal & Hsum & Hkeys & _).
    destruct (fold_left (select_missing w) (student_folders entries) (r0, []))
      as [r1 todo].
    destruct (process_folders _ s w r1 todo) as [[[s1 w1] r2]|] eqn:Hrun; [|done].
    intros [= <- <- <-].
    apply process_folders_inv in Hrun as (Htotal' & Hsum' & Hkeys' & _).
    simpl in *. split; [congruence|]. split; [lia|].
    intros k. rewrite Hkeys', Hkeys, lookup_empty. split.
    + intros [[? ?]|[Hk|?]]; [done|by apply elem_of_nil in Hk|done].
    + intros ?. right. by right.
Qed.

(** X13: a student the batch reports as a success has an artifact when
    the batch is over, so the next batch finds the student persisted,
    provided the file system lets the student's artifact be written (a
    failed write is not reported) and the folder names are ASCII. *)
Theorem batch_register_success_has_artifact (s : system Enc) (w : world Enc)
  (entries : list (string * option (list string)))
  (r : results) (s' : system Enc) (w' : world Enc)
  (folder : string * list string) (d : detail) :
  student_photos w = Some entries ->
  NoDup (student_folders entries).*1 ->
  Forall (fun folder => PyStr.isascii (fst folder) = true) (student_folders entries) ->
  json_write w (student_id_of (fst folder)) = Written ->
  batch_register_from_folders process_single_image s w
    = Some (BatchResults r, s', w') ->
  folder ∈ student_folders entries ->
  details r !! fst folder = Some d ->
  detail_success d = true ->
  encoding_exists w' (student_id_of (fst folder)) = true.
Proof.
  intros Hphotos Hnodup _ Hwrite. unfold batch_register_from_folders. rewrite Hphotos.
  destruct (student_folders entries) as [|f0 rest] eqn:Hfolders; [done|].
  rewrite <- Hfolders in *. clear Hfolders.
  set (r0 := {| total_students := _; successful := _; failed := _; details := _ |}).
  destruct (length (student_folders entries) <=? length (existing_encodings w))%nat.
  - intros [= <- <- <-] Hin Hd Hok.
    destruct (use_existing_counts w (student_folders entries) r0)
      as (_ & _ & _ & Hsucc).
    destruct (Hsucc _ _ Hd Hok) as [Hold|?]; [|done].
    simpl in Hold. by rewrite lookup_empty in Hold.
  - destruct (select_missing_fold w (student_folders entries) r0 [])
      as (r1 & Hsel & _).
    rewrite Hsel. simpl.
    destruct (process_folders _ s w r1 _) as [[[s1 w1] r2]|] eqn:Hrun; [|done].
    intros [= <- <- <-] Hin Hd Hok.
    apply process_folders_inv in Hrun as (_ & _ & _ & Hmono & Hsaved & _).
    rewrite encoding_exists_save_student_database.
    destruct (decide (missing w folder)) as [Hmiss|Hpresent].
    + apply (Hsaved) with (d := d); [|by apply list_elem_of_filter|done|done|done].
      apply (sublist_NoDup _ (student_folders entries).*1); [exact Hnodup|].
      apply fmap_sublist. apply sublist_filter.
    + apply Hmono. unfold missing in Hpresent.
      by destruct (encoding_exists w (student_id_of (fst folder))).
Qed.

End Facts.

Lemma register_student_persists_witness :
  (exists s' w' d,
     register_student sample_task default_system fresh_world "ANN" "Ann" ["ann/1.jpg"]
       = Some (true, s', w') /\
     student_database s' !! "ANN" = Some d /\
     sd_name d = "Ann" /\
     sd_encodings d ≡ₚ encodings_of sample_task ["ann/1.jpg"] /\
     sd_encodings d <> [] /\
     sd_image_count d = length (sd_encodings d) /\
     encoding_exists w' "ANN" = true /\
     (is_generic "ANN" = false ->
      artifact_of w' "ANN" ≫= loadable (clock w') "ANN" = Some d)) /\
  (exists s' w' d,
     register_student sample_task default_system locked_world "ANN" "Ann" ["ann/1.jpg"]
       = Some (true, s', w') /\
     student_database s' !! "ANN" = Some d /\
     sd_name d = "Ann" /\
     sd_encodings d ≡ₚ encodings_of sample_task ["ann/1.jpg"] /\
     sd_encodings d <> [] /\
     sd_image_count d = length (sd_encodings d) /\
     artifact_of w' "ANN" = artifact_of locked_world "ANN").
Proof.
  split; eexists _, _.
  - destruct (register_student_persists sample_task default_system fresh_world
                "ANN" "Ann" ["ann/1.jpg"] _ _ eq_refl) as (d & Hd).
    exists d. split; [reflexivity|exact Hd].
  - destruct (register_student_persists sample_task default_system locked_world
                "ANN" "Ann" ["ann/1.jpg"] _ _ eq_refl) as (d & Hd).
    exists d. split; [reflexivity|exact Hd].
Defined.

Lemma register_student_frame_witness :
  exists s' w',
    register_student sample_task ann_bob_system fresh_world "DAN" "Dan" ["dan/1.jpg"]
      = Some (true, s', w') /\
    (forall other, other <> "DAN" ->
       student_database s' !! other = student_database ann_bob_system !! other /\
       artifact_of w' other = artifact_of fresh_world other) /\
    (exists added,
       known_face_encodings s' = known_face_encodings ann_bob_system ++ added /\
       known_face_names s'
       = known_face_names ann_bob_system ++ replicate (length added) "DAN") /\
    student_photos w' = student_photos fresh_world /\
    submitted w' = submitted fresh_world ++ ["dan/1.jpg"].
Proof.
  eexists _, _. split; [reflexivity|].
  apply (register_student_frame sample_task ann_bob_system fresh_world "DAN" "Dan"
           ["dan/1.jpg"] true).
  reflexivity.
Defined.

Lemma batch_register_counts_witness :
  exists r s' w',
    batch_register_from_folders sample_task default_system fresh_world
      = Some (BatchResults r, s', w') /\
    total_students r = 2 /\
    successful r + failed r = total_students r /\
    forall k, is_Some (details r !! k) <-> k ∈ ["ann"; "bob"].
Proof.
  destruct (batch_register_from_folders sample_task default_system fresh_world)
    as [[[[message|r] s'] w']|] eqn:Hbatch; try (vm_compute in Hbatch; discriminate).
  exists r, s', w'. split; [done|].
  apply (batch_register_counts sample_task default_system fresh_world photos_ann_bob
           r s' w'); [reflexivity|exact Hbatch].
Defined.

Lemma batch_register_success_has_artifact_witness :
  exists r s' w',
    batch_register_from_folders sample_task default_system fresh_world
      = Some (BatchResults r, s', w') /\
    encoding_exists w' "ANN" = true.
Proof.
  eexists _, _, _. split; [reflexivity|].
  eapply (batch_register_success_has_artifact sample_task default_system fresh_world
            photos_ann_bob _ _ _ ("ann", ["ann/1.jpg"])).
  - reflexivity.
  - apply (bool_decide_unpack _). vm_compute. exact I.
  - repeat constructor.
  - reflexivity.
  - reflexivity.
  - vm_compute. apply elem_of_cons. by left.
  - reflexivity.
  - reflexivity.
Defined.

End RegistrationMore.

(** ** Matcher, further *)

Module MatcherMore.

Import Detection Gallery Matcher Recognition Samples MatcherFacts.

Section Facts.

Context {Enc : Type}.

Variable dist : Enc -> Enc -> Q.

(** What stands behind a recognition. *)
Lemma branch_of_Recognize_inv (s : system Enc) (ids : gset string) (face : Enc)
  student_id c :
  branch_of dist s ids face = Recognize student_id c ->
  exists d,
    face_distance dist (known_face_encodings s) face
      !! argmin (face_distance dist (known_face_encodings s) face) = Some d /\
    (d <= face_recognition_tolerance s)%Q /\
    c = (1 - d)%Q /\ (0.35 < c)%Q /\
    known_face_names s
      !! argmin (face_distance dist (known_face_encodings s) face)
      = Some student_id.
Proof.
  unfold branch_of. destruct (existsb _ _); [|done].
  rewrite compare_faces_lookup.
  destruct (face_distance dist (known_face_encodings s) face !! _) as [d|]; [|done].
  simpl. destruct (Qle_bool d (face_recognition_tolerance s)) eqn:Hle; [|done].
  apply Qle_bool_iff in Hle.
  destruct (known_face_names s !! _) as [sid|]; [|done].
  destruct (bool_decide _); [done|].
  destruct (Qlt_bool 0.35 (1 - d)) eqn:Hfloor; [|done].
  apply Qlt_bool_iff in Hfloor. intros [= <- <-]. by exists d.
Qed.

Lemma loop_accounts (s : system Enc) (faces : list (box * Enc)) :
  forall st st' all_faces,
    loop dist s st faces = Some st' ->
    (forall f, f ∈ faces -> f ∈ all_faces) ->
    Forall (grounded dist s all_faces) (recognized_students st) ->
    Forall (grounded dist s all_faces) (recognized_students st') /\
    length (recognized_students st') + unknown_faces st'
      <= length (recognized_students st) + unknown_faces st + length faces.
Proof.
  induction faces as [|[loc face] rest IH]; intros st st' all_faces Hloop Hsub Hall.
  - injection Hloop as <-. split; [done|]. simpl. lia.
  - simpl in Hloop.
    destruct (loop_body dist s st (loc, face)) as [st1|] eqn:Hbody; [|done].
    apply (IH st1 st' all_faces) in Hloop as [Hall' Hcount].
    + split; [done|]. revert Hbody Hcount. unfold loop_body. simpl.
      destruct (branch_of dist s (recognized_student_ids st) face);
        intros [= <-]; simpl; try rewrite length_app; simpl; lia.
    + intros f Hf. apply Hsub. apply elem_of_cons. by right.
    + revert Hbody. unfold loop_body. simpl.
      destruct (branch_of dist s (recognized_student_ids st) face) eqn:Hb;
        intros [= <-]; simpl; try done.
      apply Forall_app. split; [done|]. constructor; [|done].
      apply branch_of_Recognize_inv in Hb as (d & Hd & Hle & -> & Hfloor & Hname).
      exists loc, face, d. simpl. split; [|done].
      apply Hsub. apply elem_of_cons. by left.
Qed.

(** X14: against an empty gallery every face of the frame is counted as
    unknown and nobody is recognised. *)
Theorem recognize_with_empty_gallery (s : system Enc) (faces : list (box * Enc)) :
  known_face_encodings s = [] ->
  faces <> [] ->
  recognize_faces_in_image dist s faces
  = Recognition [] (length faces) 0 (length faces).
Proof.
  intros Hempty Hfaces.
  assert (Hloop : forall l st,
             loop dist s st l
             = Some {| recognized_students := recognized_students st;
                       unknown_faces := unknown_faces st + length l;
                       recognized_student_ids := recognized_student_ids st |}).
  { induction l as [|f rest IH]; intros st.
    - simpl. rewrite Nat.add_0_r. by destruct st.
    - simpl. unfold loop_body, branch_of. rewrite Hempty. simpl.
      rewrite IH. simpl. do 2 f_equal. lia. }
  unfold recognize_faces_in_image. rewrite Hloop. by destruct faces.
Qed.

(** X15: the counts of a recognition: [total_faces] is the number of
    faces, [recognized_count] the number of listed students, and recognised
    plus unknown faces never exceed the total. *)
Theorem recognition_counts (s : system Enc) (faces : list (box * Enc))
  (students : list recognized) (total_faces recognized_count unknown : nat) :
  recognize_faces_in_image dist s faces
    = Recognition students total_faces recognized_count unknown ->
  total_faces = length faces /\
  recognized_count = length students /\
  recognized_count + unknown <= total_faces.
Proof.
  unfold recognize_faces_in_image. intros Hrec.
  destruct faces as [|face rest]; [done|].
  destruct (loop dist s initial_state (face :: rest)) as [st|] eqn:Hloop; [|done].
  injection Hrec as <- <- <- <-.
  apply (loop_accounts s _ _ _ (face :: rest)) in Hloop as [_ Hcount];
    [|done|constructor].
  simpl in *. split; [done|]. split; [done|]. lia.
Qed.

(** X16: every listed student is backed by a face of the frame: the
    nearest gallery embedding of that face is within the tolerance and
    carries the student's id, the confidence is one minus that distance and
    above 0.35, and the name is the one the gallery has for that id. *)
Theorem recognized_students_grounded (s : system Enc) (faces : list (box * Enc))
  (students : list recognized) (total_faces recognized_count unknown : nat)
  (r : recognized) :
  recognize_faces_in_image dist s faces
    = Recognition students total_faces recognized_count unknown ->
  r ∈ students ->
  grounded dist s faces r.
Proof.
  unfold recognize_faces_in_image. intros Hrec Hr.
  destruct faces as [|face rest]; [done|].
  destruct (loop dist s initial_state (face :: rest)) as [st|] eqn:Hloop; [|done].
  injection Hrec as <- _ _ _.
  apply (loop_accounts s _ _ _ (face :: rest)) in Hloop as [Hall _];
    [|done|constructor].
  rewrite Forall_forall in Hall. by apply Hall.
Qed.

(** *** The simple path *)

(** One face: the matcher returns, with the face's location, Unknown or
    a registered student who owns a nearest embedding, nearer than 0.6. *)
Lemma match_face_returns (s : simple_system Enc) (loc : box) (face : Enc) :
  simple_ok s ->
  exists r,
    match_face dist s (loc, face) = Some r /\
    face_location r = loc /\
    (r = unknown_result loc \/
     exists sid encodings e,
       (sid, encodings) ∈ student_encodings s /\ e ∈ encodings /\
       (dist e face < 0.6)%Q /\
       (forall sid' encodings' e', (sid', encodings') ∈ student_encodings s ->
          e' ∈ encodings' -> (dist e face <= dist e' face)%Q) /\
       student_id r = sid /\
       student_names s !! sid = Some (name r) /\
       confidence r = (1 - dist e face)%Q).
Proof.
  intros Hok. unfold match_face. simpl.
  destruct (best_student_returns dist (student_encodings s) face)
    with (best_match0 := @None string) (best_distance0 := 1%Q)
    as [[bm bd] Hbest].
  { intros sid encodings Hin. by destruct (Hok sid encodings Hin). }
  rewrite Hbest. apply best_student_least in Hbest as (_ & Hall & Howner).
  destruct Howner as [[-> ->]|(sid & encodings & e & Hin & He & -> & -> & _)].
  { eexists. split; [done|]. split; [done|]. by left. }
  destruct (Hok sid encodings Hin) as (_ & Hid & [student_name Hname]).
  simpl. destruct sid as [|c sid]; [done|].
  destruct (Qlt_bool (dist e face) 0.6) eqn:Hlt.
  - apply Qlt_bool_iff in Hlt. rewrite Hname.
    eexists. split; [done|]. split; [done|]. right.
    exists (String c sid), encodings, e. by repeat split.
  - eexists. split; [done|]. split; [done|]. by left.
Qed.

(** X17: with every registered student named and encoded, the simple
    matcher returns one result per face, in the order of the faces and with
    their locations; a result is Unknown with confidence 0 or names a
    registered student who owns an embedding nearest to the face, nearer than
    0.6, with confidence one minus that distance. *)
Theorem detect_faces_one_result_per_face (s : simple_system Enc)
  (faces : list (box * Enc)) :
  simple_ok s ->
  exists results,
    detect_faces_in_image dist s faces = Some results /\
    face_location <$> results = faces.*1 /\
    forall i r, results !! i = Some r ->
      exists loc face,
        faces !! i = Some (loc, face) /\
        (r = unknown_result loc \/
         exists sid encodings e,
           (sid, encodings) ∈ student_encodings s /\ e ∈ encodings /\
           (dist e face < 0.6)%Q /\
           (forall sid' encodings' e', (sid', encodings') ∈ student_encodings s ->
              e' ∈ encodings' -> (dist e face <= dist e' face)%Q) /\
           student_id r = sid /\
           student_names s !! sid = Some (name r) /\
           confidence r = (1 - dist e face)%Q).
Proof.
  intros Hok. unfold detect_faces_in_image.
  induction faces as [|[loc face] rest IH].
  - exists []. split; [done|]. split; [done|]. intros i r Hi. by rewrite lookup_nil in Hi.
  - destruct IH as (results & Hrest & Hlocs & Hshape).
    destruct (match_face_returns s loc face Hok) as (r & Hr & Hloc & Hr_shape).
    exists (r :: results). split.
    { apply mapM_Some. constructor; [done|]. by apply mapM_Some. }
    split; [cbn; by rewrite Hloc, <- Hlocs|].
    intros [|i] r' Hi.
    + injection Hi as <-. by exists loc, face.
    + by apply Hshape.
Qed.

End Facts.

Lemma recognize_with_empty_gallery_witness :
  recognize_faces_in_image line_dist default_system
    [(face_box, 0.1%Q); (other_box, 0.2%Q)]
  = Recognition [] 2 0 2.
Proof.
  apply (recognize_with_empty_gallery line_dist default_system
           [(face_box, 0.1%Q); (other_box, 0.2%Q)]); done.
Defined.

Lemma recognition_counts_witness :
  exists students total_faces recognized_count unknown,
    recognize_faces_in_image line_dist ann_bob_system
      [(face_box, 0.1%Q); (other_box, 0.2%Q)]
      = Recognition students total_faces recognized_count unknown /\
    total_faces = 2 /\
    recognized_count = length students /\
    recognized_count + unknown <= total_faces.
Proof.
  eexists _, _, _, _. split; [reflexivity|].
  apply (recognition_counts line_dist ann_bob_system
           [(face_box, 0.1%Q); (other_box, 0.2%Q)]).
  reflexivity.
Defined.

Lemma recognized_students_grounded_witness :
  grounded line_dist ann_bob_system [(face_box, 0.1%Q); (other_box, 0.2%Q)]
    {| r_student_id := "ANN"; r_student_name := "Ann";
       r_confidence := 0.9; r_face_location := face_box |}.
Proof.
  eapply (recognized_students_grounded line_dist ann_bob_system
            [(face_box, 0.1%Q); (other_box, 0.2%Q)] _ 2 1 0).
  - reflexivity.
  - apply elem_of_cons. by left.
Defined.

Lemma detect_faces_one_result_per_face_witness :
  exists results,
    detect_faces_in_image line_dist simple_ann_bob
      [(face_box, 0.1%Q); (other_box, 0.7%Q)] = Some results /\
    face_location <$> results = [face_box; other_box] /\
    forall i r, results !! i = Some r ->
      exists loc face,
        [(face_box, 0.1%Q); (other_box, 0.7%Q)] !! i = Some (loc, face) /\
        (r = unknown_result loc \/
         exists sid encodings e,
           (sid, encodings) ∈ student_encodings simple_ann_bob /\ e ∈ encodings /\
           (line_dist e face < 0.6)%Q /\
           (forall sid' encodings' e',
              (sid', encodings') ∈ student_encodings simple_ann_bob ->
              e' ∈ encodings' -> (line_dist e face <= line_dist e' face)%Q) /\
           student_id r = sid /\
           student_names simple_ann_bob !! sid = Some (name r) /\
           confidence r = (1 - line_dist e face)%Q).
Proof.
  apply (detect_faces_one_result_per_face line_dist simple_ann_bob
           [(face_box, 0.1%Q); (other_box, 0.7%Q)]).
  apply simple_ann_bob_ok.
Defined.

End MatcherMore.

(** ** Attendance recorder, further *)

Module RecorderMore.

Import Detection Matcher Recorder Classroom Samples MatcherFacts MatcherMore RecorderFacts.

Lemma all_rows_create_table (db : database) :
  rows (create_table_if_not_exists db) = all_rows db.
Proof. by destruct db. Qed.

(** One call leaves the rows as they are. *)
Lemma mark_attendance_rows (student_names : gmap string string) (db : database)
  (today now : nat) (student_id : string) (confidence : Q) (image_path : string) :
  all_rows (snd (mark_attendance student_names db today now student_id confidence
                   image_path)) = all_rows db.
Proof.
  destruct (decide (student_id = "Unknown")) as [->|Hknown]; [done|].
  rewrite mark_attendance_raises by done. apply all_rows_create_table.
Qed.

(** X18: no sequence of [mark_attendance] calls ever adds a record:
    whatever the students, dates and confidences, the rows of the table are
    what they were before the first call. *)
Theorem marks_never_record (student_names : gmap string string)
  (db : database) (calls : list mark_call) :
  all_rows (run_marks student_names db calls) = all_rows db.
Proof.
  revert db. induction calls as [|c rest IH]; intros db; [done|].
  simpl. rewrite IH. apply mark_attendance_rows.
Qed.

(** X19: [mark_attendance] never returns [True] and never reaches the
    name lookup of its last line: for 'Unknown' it returns [False] without
    touching the database, and for any other id, named or not, the INSERT
    raises on the time parameter once the table is created. *)
Theorem mark_attendance_never_succeeds (student_names : gmap string string)
  (db : database) (today now : nat) (student_id : string) (confidence : Q)
  (image_path : string) :
  fst (mark_attendance student_names db today now student_id confidence image_path)
    <> Returned true /\
  fst (mark_attendance student_names db today now student_id confidence image_path)
    <> KeyError /\
  (student_id = "Unknown" ->
   mark_attendance student_names db today now student_id confidence image_path
   = (Returned false, db)) /\
  (student_id <> "Unknown" ->
   mark_attendance student_names db today now student_id confidence image_path
   = (BindingError, Some (create_table_if_not_exists db))).
Proof.
  destruct (decide (student_id = "Unknown")) as [->|Hknown].
  - by repeat split.
  - rewrite mark_attendance_raises by done. by repeat split.
Qed.

(** The batch loop gets through exactly when no result names a student,
    and then inserts nothing. *)
Lemma insert_all_unknown (results : list (string * Q)) (t : table)
  (today now : nat) (image_path : string) :
  insert_all t today now image_path results
  = match filter (fun r => fst r <> "Unknown") results with
    | [] => Some t
    | _ => None
    end.
Proof.
  induction results as [|[student_id confidence] rest IH]; [done|].
  cbn [insert_all]. destruct (decide (student_id = "Unknown")) as [->|Hknown].
  - rewrite bool_decide_eq_true_2 by done.
    rewrite filter_cons_False by (simpl; tauto). exact IH.
  - rewrite bool_decide_eq_false_2 by done.
    by rewrite filter_cons_True, insert_time_raises by done.
Qed.

(** X20: [mark_attendance_batch] commits exactly when no result names a
    student, and raises on the first result that does; either way the rows
    of the table are what they were. *)
Theorem mark_attendance_batch_never_records (db : database) (today now : nat)
  (results : list (string * Q)) (image_path : string) :
  (fst (mark_attendance_batch db today now results image_path) = Some tt <->
   Forall (fun r => fst r = "Unknown") results) /\
  all_rows (snd (mark_attendance_batch db today now results image_path))
  = all_rows db.
Proof.
  unfold mark_attendance_batch. rewrite insert_all_unknown.
  destruct (filter (fun r => fst r <> "Unknown") results) as [|r rest] eqn:Hnamed;
    simpl; (split; [|apply all_rows_create_table]).
  - split; [intros _|done]. apply Forall_forall. intros r Hin.
    destruct (decide (fst r = "Unknown")) as [?|Hknown]; [done|].
    assert (Hr : r ∈ filter (fun r => fst r <> "Unknown") results)
      by (by apply list_elem_of_filter).
    rewrite Hnamed in Hr. by apply elem_of_nil in Hr.
  - split; [done|]. intros Hall.
    assert (Hr : r ∈ filter (fun r => fst r <> "Unknown") results)
      by (rewrite Hnamed; apply elem_of_cons; by left).
    apply list_elem_of_filter in Hr as [Hknown Hr].
    rewrite Forall_forall in Hall. by destruct Hknown; apply Hall.
Qed.

Section Photo.

Context {Enc : Type}.

Variable dist : Enc -> Enc -> Q.

(** The marking loop of [process_classroom_photo] ends at the first
    result that names a student. *)
Lemma mark_results_raises (student_names : gmap string string)
  (results : list simple_result) (db : database) (today now : nat)
  (image_path : string) :
  exists db',
    mark_results student_names db today now image_path results
    = (match named results with [] => None | _ => Some BindingError end, db') /\
    all_rows db' = all_rows db.
Proof.
  induction results as [|r rest IH]; [by exists db|].
  cbn [mark_results]. unfold named.
  destruct (decide (student_id r = "Unknown")) as [Hr|Hr].
  - rewrite bool_decide_eq_true_2 by done.
    rewrite filter_cons_False by tauto. exact IH.
  - rewrite bool_decide_eq_false_2 by done.
    rewrite mark_attendance_raises by done.
    rewrite filter_cons_True by done.
    eexists. split; [done|]. apply all_rows_create_table.
Qed.

(** X21: a classroom photo with faces, processed with well-formed
    dictionaries: the faces are matched, one result each, and nothing is
    recorded.  The results are returned only when every face is Unknown; as
    soon as one names a student the marking raises and the caller gets no
    results. *)
Theorem process_classroom_photo_never_records (s : simple_system Enc) (db : database)
  (today now : nat) (faces : list (box * Enc)) (image_path : string) :
  simple_ok s ->
  faces <> [] ->
  exists results db',
    detect_faces_in_image dist s faces = Some results /\
    length results = length faces /\
    process_classroom_photo dist s db today now true faces image_path
    = (match named results with
       | [] => PhotoResults results
       | _ => MarkingRaised BindingError
       end, db') /\
    all_rows db' = all_rows db.
Proof.
  intros Hok Hfaces.
  assert (Hsome : is_Some (detect_faces_in_image dist s faces)).
  { apply mapM_is_Some_2. apply Forall_forall. intros [loc face] _.
    destruct (match_face_returns dist s loc face Hok) as (r & Hr & _).
    by exists r. }
  destruct Hsome as [results Hdetect].
  assert (Hlen : length results = length faces).
  { apply mapM_Some_1 in Hdetect. symmetry. by eapply Forall2_length. }
  destruct (mark_results_raises (student_names s) results db today now image_path)
    as (db' & Hmark & Hrows).
  exists results, db'. split; [done|]. split; [done|]. split; [|done].
  unfold process_classroom_photo. simpl. rewrite Hdetect.
  destruct results as [|r rest] eqn:Hresults.
  { destruct faces; [done|discriminate]. }
  rewrite <- Hresults in *. rewrite Hmark. by destruct (named results).
Qed.

End Photo.

Lemma mark_attendance_never_succeeds_witness :
  mark_attendance ann_bob_names None 20 900 "ANN" 0.9 "monday.jpg"
  = (BindingError, Some (create_table_if_not_exists None)).
Proof.
  destruct (mark_attendance_never_succeeds ann_bob_names None 20 900 "ANN" 0.9
              "monday.jpg") as (_ & _ & _ & Hraises).
  apply Hraises. done.
Defined.

Lemma process_classroom_photo_never_records_witness :
  exists results db',
    detect_faces_in_image line_dist simple_ann_bob
      [(face_box, 0.1%Q); (other_box, 0.7%Q)] = Some results /\
    length results = 2 /\
    process_classroom_photo line_dist simple_ann_bob None 20 900 true
      [(face_box, 0.1%Q); (other_box, 0.7%Q)] "monday.jpg"
    = (match named results with
       | [] => PhotoResults results
       | _ => MarkingRaised BindingError
       end, db') /\
    all_rows db' = all_rows None.
Proof.
  apply (process_classroom_photo_never_records line_dist simple_ann_bob None 20 900
           [(face_box, 0.1%Q); (other_box, 0.7%Q)] "monday.jpg");
    [apply simple_ann_bob_ok|done].
Defined.

End RecorderMore.

(** ** Uploaded file names *)

Module UploadsFacts.

Import Uploads.

Local Open Scope string_scope.

Lemma after_last_dot_None s : after_last_dot s = None <-> contains_dot s = false.
Proof.
  induction s as [|c rest IH]; simpl; [done|].
  destruct (after_last_dot rest) as [extension|].
  - split; [done|]. intros Hdot. apply orb_false_iff in Hdot as [_ Hrest].
    apply IH in Hrest. done.
  - destruct (Ascii.eqb c "."); simpl; [done|]. by rewrite <- IH.
Qed.

Lemma after_last_dot_Some s extension :
  after_last_dot s = Some extension <->
  exists base, s = base +:+ "." +:+ extension /\ contains_dot extension = false.
Proof.
  split.
  - revert extension. induction s as [|c rest IH]; intros extension; simpl; [done|].
    destruct (after_last_dot rest) as [extension'|] eqn:Hrest.
    + intros [= ->]. destruct (IH extension eq_refl) as (base & -> & Hext).
      by exists (String c base).
    + destruct (Ascii.eqb_spec c "."); [|done].
      intros [= ->]. subst c. exists "". split; [done|].
      by apply after_last_dot_None.
  - intros (base & -> & Hext). induction base as [|c base IH].
    + apply after_last_dot_None in Hext.
      change (after_last_dot (String "." extension) = Some extension).
      cbn [after_last_dot]. by rewrite Hext.
    + change (after_last_dot (String c (base +:+ "." +:+ extension)) = Some extension).
      cbn [after_last_dot]. by rewrite IH.
Qed.

(** X22: [allowed_file] accepts exactly the names that end in a dot and
    an extension without dot which, lower-cased, is png, jpg or jpeg: only
    what follows the last dot counts, and its case does not. *)
Theorem allowed_file_iff (filename : string) :
  allowed_file filename = true <->
  exists base extension,
    filename = base +:+ "." +:+ extension /\
    contains_dot extension = false /\
    (lower extension = "png" \/ lower extension = "jpg" \/ lower extension = "jpeg").
Proof.
  unfold allowed_file, ALLOWED_EXTENSIONS. split.
  - intros Hallowed. apply andb_true_iff in Hallowed as [_ Hext].
    destruct (after_last_dot filename) as [extension|] eqn:Hafter; [|done].
    apply after_last_dot_Some in Hafter as (base & -> & Hnodot).
    exists base, extension. split; [done|]. split; [done|].
    apply bool_decide_eq_true in Hext.
    repeat (apply elem_of_union in Hext as [Hext|Hext]);
      apply elem_of_singleton in Hext; auto.
  - intros (base & extension & -> & Hnodot & Hext).
    assert (Hafter : after_last_dot (base +:+ "." +:+ extension) = Some extension)
      by (apply after_last_dot_Some; eauto).
    rewrite Hafter. apply andb_true_iff. split.
    + destruct (contains_dot (base +:+ "." +:+ extension)) eqn:Hdot; [done|].
      apply (proj2 (after_last_dot_None _)) in Hdot. congruence.
    + apply bool_decide_eq_true. rewrite !elem_of_union, !elem_of_singleton. tauto.
Qed.

End UploadsFacts.

(** ** The OpenCV path *)

Module OpenCVFacts.

Import Matcher Recorder Classroom OpenCV MatcherFacts RecorderMore.

Section Facts.

Context {Feat : Type}.

Variable similarity : Feat -> string -> option Q.

(** [best_similarity] is above its initial value and above the similarity
    of every student; either nothing beat the initial value, or
    [best_match] is a student at exactly [best_similarity]. *)
Lemma best_photo_greatest (student_photos : list (string * string)) (face : Feat) :
  forall best_match0 best_similarity0,
    let out := best_photo similarity student_photos face best_match0 best_similarity0 in
    (best_similarity0 <= snd out)%Q /\
    (forall sid nm s, (sid, nm) ∈ student_photos -> similarity face sid = Some s ->
       (s <= snd out)%Q) /\
    ((fst out = best_match0 /\ snd out = best_similarity0) \/
     (exists sid nm, (sid, nm) ∈ student_photos /\ fst out = Some sid /\
                     similarity face sid = Some (snd out) /\
                     (best_similarity0 < snd out)%Q)).
Proof.
  induction student_photos as [|[sid nm] rest IH]; intros bm0 bs0 out; subst out.
  - simpl. split; [Lqa.lra|]. split; [|by left].
    intros sid nm s Hin. by apply elem_of_nil in Hin.
  - simpl. destruct (similarity face sid) as [s|] eqn:Hs.
    + destruct (Qlt_bool bs0 s) eqn:Hlt.
      * apply Qlt_bool_iff in Hlt.
        destruct (IH (Some sid) s) as (Hle & Hall & Howner).
        split; [Lqa.lra|]. split.
        -- intros sid' nm' s' Hin Hs'.
           apply elem_of_cons in Hin as [[= -> ->]|Hin]; [|by eapply Hall].
           assert (s' = s) as -> by congruence. done.
        -- right. destruct Howner as [[Hbm Hbs]|(sid' & nm' & Hin & Hbm & Hsim & Hlt')].
           ++ exists sid, nm. split; [apply elem_of_cons; by left|].
              split; [done|]. rewrite Hbs. split; [done|Lqa.lra].
           ++ exists sid', nm'. split; [apply elem_of_cons; by right|].
              split; [done|]. split; [done|Lqa.lra].
      * apply Qlt_bool_false_iff in Hlt.
        destruct (IH bm0 bs0) as (Hle & Hall & Howner).
        split; [done|]. split.
        -- intros sid' nm' s' Hin Hs'.
           apply elem_of_cons in Hin as [[= -> ->]|Hin]; [|by eapply Hall].
           assert (s' = s) as -> by congruence. Lqa.lra.
        -- destruct Howner as [?|(sid' & nm' & Hin & Hbm & Hsim & Hlt')]; [by left|].
           right. exists sid', nm'. split; [apply elem_of_cons; by right|]. done.
    + destruct (IH bm0 bs0) as (Hle & Hall & Howner).
      split; [done|]. split.
      * intros sid' nm' s' Hin Hs'.
        apply elem_of_cons in Hin as [[= -> ->]|Hin]; [congruence|by eapply Hall].
      * destruct Howner as [?|(sid' & nm' & Hin & Hbm & Hsim & Hlt')]; [by left|].
        right. exists sid', nm'. split; [apply elem_of_cons; by right|]. done.
Qed.


Lemma named_pairs (results : list opencv_result) :
  length (filter (fun p : string * Q => fst p <> "Unknown")
            ((fun r => (o_student_id r, o_confidence r)) <$> results))
  = length (filter (fun r => o_student_id r <> "Unknown") results).
Proof.
  induction results as [|r rest IH]; [done|].
  cbn [fmap list_fmap]. destruct (decide (o_student_id r = "Unknown")) as [Hr|Hr].
  - rewrite !filter_cons_False by (simpl; tauto). exact IH.
  - rewrite !filter_cons_True by done. simpl. by rewrite IH.
Qed.

(** X26: a readable photo with faces gets one result per face, and
    nothing is recorded: the results are returned only when every face is
    Unknown; as soon as one names a student the batch raises and the caller
    gets no results. *)
Theorem opencv_photo_never_records (student_photos : list (string * string))
  (db : database) (today now : nat) (faces : list (rect * Feat))
  (image_path : string) :
  faces <> [] ->
  exists db',
    process_classroom_photo similarity student_photos db today now true faces
      image_path
    = (match filter (fun r => o_student_id r <> "Unknown")
               (match_photos similarity student_photos faces) with
       | [] => OpenCVResults (match_photos similarity student_photos faces)
       | _ => BatchRaised
       end, db') /\
    length (match_photos similarity student_photos faces) = length faces /\
    all_rows db' = all_rows db.
Proof.
  intros Hfaces. unfold process_classroom_photo, mark_attendance_batch. simpl.
  destruct faces as [|face rest] eqn:Hfs; [done|]. rewrite <- Hfs. clear Hfs.
  set (results := match_photos similarity student_photos faces).
  rewrite insert_all_unknown.
  pose proof (named_pairs results) as Hnamed.
  exists (Some (create_table_if_not_exists db)).
  split; [|split; [apply length_imap|apply all_rows_create_table]].
  destruct (filter (fun p : string * Q => fst p <> "Unknown") _),
    (filter (fun r => o_student_id r <> "Unknown") results); done.
Qed.

End Facts.
End OpenCVFacts.

(** ** Compositions and edge cases *)

Module CompositionFacts.

Import Detection DetectionOrder Gallery Matcher Samples.
Import DetectionFacts DetectionMore RegistrationFacts RegistrationMore GalleryFacts.
Import MatcherFacts.

(** X23: what the tail of [fast_face_detection] returns: only faces the
    detectors proposed, each at least [min_face_size] wide and high, the
    largest area first; nothing for no detection. *)
Theorem merge_detections_valid (min_face_size : Z) (all_faces : list box) :
  (forall b, b ∈ merge_detections min_face_size all_faces ->
     b ∈ all_faces /\
     (min_face_size <= f_bottom b - f_top b)%Z /\
     (min_face_size <= f_right b - f_left b)%Z) /\
  StronglySorted by_area_desc (merge_detections min_face_size all_faces) /\
  merge_detections min_face_size [] = [].
Proof.
  split; [|split; [|done]].
  - intros b Hb. unfold merge_detections in Hb.
    destruct all_faces as [|face rest] eqn:Hfaces; [by apply elem_of_nil in Hb|].
    rewrite <- Hfaces in *. clear Hfaces.
    unfold filter_and_validate_faces, sort_by_area in Hb.
    destruct (sort_by_area_from
                (filter (fun b => valid_size min_face_size b = true)
                   (remove_duplicate_faces all_faces)) [])
      as [_ Hperm]; [constructor|].
    rewrite Hperm in Hb. simpl in Hb.
    apply list_elem_of_filter in Hb as [Hvalid Hb].
    unfold valid_size in Hvalid. apply andb_true_iff in Hvalid as [Hh Hw].
    apply Z.leb_le in Hh. apply Z.leb_le in Hw.
    split; [|done].
    unfold remove_duplicate_faces in Hb.
    destruct (length all_faces <=? 1)%nat; [done|].
    destruct (dedup_loop_kept all_faces []) as (kept & Hkept & Hsub).
    rewrite Hkept in Hb. simpl in Hb. by eapply sublist_subseteq.
  - unfold merge_detections. destruct all_faces; [constructor|].
    unfold filter_and_validate_faces, sort_by_area.
    by apply sort_by_area_from; constructor.
Qed.

Section Facts.

Context {Enc : Type}.

Variable process_single_image : string -> task Enc.

Variable dist : Enc -> Enc -> Q.

(** [min] raises on the student without encodings, wherever the student
    stands in the dictionary. *)
Lemma best_student_raises (students : list (string * list Enc)) (face : Enc) sid :
  (sid, []) ∈ students ->
  forall best_match best_distance,
    best_student dist students face best_match best_distance = None.
Proof.
  induction students as [|[sid' encodings] rest IH]; intros Hin bm bd.
  - by apply elem_of_nil in Hin.
  - simpl. apply elem_of_cons in Hin as [[= <- <-]|Hin]; [done|].
    destruct (py_min _); [|done]. destruct (Qlt_bool _ _); by apply IH.
Qed.

(** X24: one registered student without any encoding breaks the simple
    matcher for everybody: on every frame with a face
    [detect_faces_in_image] raises instead of returning results. *)
Theorem detect_faces_raises_on_empty_encodings (s : simple_system Enc)
  (faces : list (box * Enc)) (sid : string) :
  (sid, []) ∈ student_encodings s ->
  faces <> [] ->
  detect_faces_in_image dist s faces = None.
Proof.
  intros Hin Hfaces. destruct faces as [|[loc face] rest]; [done|].
  assert (Hface : match_face dist s (loc, face) = None).
  { unfold match_face. simpl. by rewrite (best_student_raises _ _ sid Hin). }
  unfold detect_faces_in_image. simpl. by rewrite Hface.
Qed.

(** The processing loop keeps the gallery consistent when it registers
    students that are new and distinct. *)
Lemma process_folders_consistent (folders : list (string * list string)) :
  forall (s : system Enc) (w : world Enc) (r : results) s' w' r',
    consistent s ->
    NoDup (student_id_of <$> folders.*1) ->
    (forall folder, folder ∈ folders ->
       student_database s !! student_id_of (fst folder) = None) ->
    process_folders process_single_image s w r folders = Some (s', w', r') ->
    consistent s'.
Proof.
  induction folders as [|[folder images] rest IH];
    intros s w r s' w' r' Hc Hnodup Hfresh Hrun.
  - by injection Hrun as <- _ _.
  - change (NoDup (student_id_of folder :: (student_id_of <$> rest.*1))) in Hnodup.
    apply NoDup_cons in Hnodup as [Hnew Hnodup].
    cbn [process_folders] in Hrun.
    destruct (process_folder _ s w r (folder, images)) as [[[s1 w1] r1]|] eqn:Hstep;
      [|done].
    assert (Hs1 : consistent s1 /\
                  forall other, other <> student_id_of folder ->
                    student_database s1 !! other = student_database s !! other).
    { unfold process_folder in Hstep. destruct images as [|image more] eqn:Himages.
      - by injection Hstep as <- _ _.
      - rewrite <- Himages in Hstep.
        destruct (register_student _ _ _ _ _ _) as [[[success s2] w2]|] eqn:Hreg;
          [|done].
        assert (s1 = s2) as -> by (destruct success; by injection Hstep).
        split.
        + eapply register_student_fresh_consistent; [exact Hc| |exact Hreg].
          apply (Hfresh (folder, image :: more)). apply elem_of_cons. by left.
        + intros other Hother.
          apply register_student_inv in Hreg
            as (all & _ & [(_ & _ & -> & _)|(_ & _ & -> & _)]); [done|].
          simpl. by rewrite lookup_insert_ne. }
    destruct Hs1 as [Hc1 Hframe].
    eapply IH; [exact Hc1|exact Hnodup| |exact Hrun].
    intros f Hf. rewrite Hframe.
    + apply Hfresh. apply elem_of_cons. by right.
    + intros Heq. apply Hnew. rewrite <- Heq.
      apply list_elem_of_fmap. exists (fst f). split; [done|].
      apply list_elem_of_fmap. by exists f.
Qed.

(** X27: a batch that registers students new to the gallery, from folders
    with ASCII names no two of which give the same id, leaves the map and
    the two lists consistent. *)
Theorem batch_register_consistent (s : system Enc) (w : world Enc)
  (entries : list (string * option (list string)))
  (result : batch_result) (s' : system Enc) (w' : world Enc) :
  student_photos w = Some entries ->
  consistent s ->
  Forall (fun folder => PyStr.isascii (fst folder) = true) (student_folders entries) ->
  NoDup (student_id_of <$> (student_folders entries).*1) ->
  (forall folder, folder ∈ student_folders entries ->
     student_database s !! student_id_of (fst folder) = None) ->
  batch_register_from_folders process_single_image s w = Some (result, s', w') ->
  consistent s'.
Proof.
  intros Hphotos Hc _ Hnodup Hfresh. unfold batch_register_from_folders.
  rewrite Hphotos.
  destruct (student_folders entries) as [|f0 rest] eqn:Hfolders;
    [by intros [= _ <- _]|].
  rewrite <- Hfolders in *. clear Hfolders.
  destruct (length (student_folders entries) <=? length (existing_encodings w))%nat;
    [by intros [= _ <- _]|].
  set (r0 := {| total_students := _; successful := _; failed := _; details := _ |}).
  destruct (select_missing_fold w (student_folders entries) r0 [])
    as (r1 & -> & _).
  simpl.
  destruct (process_folders _ s w r1 _) as [[[s1 w1] r2]|] eqn:Hrun; [|done].
  intros [= _ <- _].
  eapply process_folders_consistent; [exact Hc| | |exact Hrun].
  - apply (sublist_NoDup _ (student_id_of <$> (student_folders entries).*1));
      [exact Hnodup|].
    apply fmap_sublist. apply fmap_sublist. apply sublist_filter.
  - intros folder Hin. apply list_elem_of_filter in Hin as [_ Hin]. by apply Hfresh.
Qed.

End Facts.

Lemma detect_faces_raises_on_empty_encodings_witness :
  detect_faces_in_image line_dist
    {| student_encodings := [("ANN", [0%Q]); ("BOB", [])];
       student_names := ann_bob_names |}
    [(face_box, 0.1%Q)] = None.
Proof.
  apply (detect_faces_raises_on_empty_encodings line_dist _ _ "BOB").
  - apply elem_of_cons. right. apply elem_of_cons. by left.
  - done.
Defined.

Lemma batch_register_consistent_witness :
  exists result s' w',
    batch_register_from_folders sample_task default_system fresh_world
      = Some (result, s', w') /\
    consistent s'.
Proof.
  eexists _, _, _. split; [reflexivity|].
  eapply (batch_register_consistent sample_task default_system fresh_world
            photos_ann_bob).
  - reflexivity.
  - apply (clear_consistent default_system).
  - repeat constructor.
  - apply (bool_decide_unpack _). vm_compute. exact I.
  - intros folder _. apply lookup_empty.
  - reflexivity.
Defined.

End CompositionFacts.

(** ** The properties at sample inputs *)

Module MoreExamples.

Import Detection DetectionOrder Gallery Persistence Matcher Recorder Uploads.
Import OpenCV Samples OpenCVSamples.

Lemma load_precomputed_encodings_database_witness :
  student_database (snd (load_precomputed_encodings default_system persisted_world))
    !! "ANN"
  = artifact_of persisted_world "ANN" ≫= loadable (clock persisted_world) "ANN".
Proof.
  destruct (PersistenceFacts.load_precomputed_encodings_database
              default_system persisted_world "ANN") as (_ & Hnew & _).
  apply Hnew. reflexivity.
Defined.

Lemma mark_attendance_batch_never_records_witness :
  fst (mark_attendance_batch None 5 9 [("Unknown", 0.3%Q); ("Unknown", 0.2%Q)]
         "room.jpg")
  = Some tt.
Proof.
  destruct (RecorderMore.mark_attendance_batch_never_records
              None 5 9 [("Unknown", 0.3%Q); ("Unknown", 0.2%Q)] "room.jpg")
    as ([_ Hcommits] & _).
  apply Hcommits. by repeat constructor.
Defined.

Lemma allowed_file_iff_witness : allowed_file "photo.JPG" = true.
Proof.
  apply (UploadsFacts.allowed_file_iff "photo.JPG"). exists "photo", "JPG".
  split; [reflexivity|]. split; [reflexivity|]. right. left. reflexivity.
Defined.

Lemma merge_detections_valid_witness :
  other_box ∈ [face_box; other_box] /\
  (30 <= f_bottom other_box - f_top other_box)%Z /\
  (30 <= f_right other_box - f_left other_box)%Z.
Proof.
  destruct (CompositionFacts.merge_detections_valid 30 [face_box; other_box])
    as (Hvalid & _ & _).
  apply Hvalid. vm_compute. repeat constructor.
Defined.


Lemma opencv_photo_never_records_witness :
  exists db',
    process_classroom_photo sample_similarity class_photos None 5 9 true class_faces
      "room.jpg"
    = (BatchRaised, db') /\
    length (match_photos sample_similarity class_photos class_faces)
    = length class_faces /\
    Classroom.all_rows db' = Classroom.all_rows None.
Proof.
  apply (OpenCVFacts.opencv_photo_never_records sample_similarity class_photos None
           5 9 class_faces "room.jpg"); discriminate.
Defined.

End MoreExamples.
